(** * Meter-readings tracker: the client-side contracts, embedded in Rocq

    The development follows the TypeScript sources:
    - [AddReadingForm] (the zod [formSchema] and the submitted payload),
    - [ReadingsTable] (in-place sort, severity colouring),
    - [ProfileHeader] ([handleSaveInitialReading]),
    - [Dashboard] ([fetchProfiles], [handleDeleteProfile]),
    - [MeterDetails] ([handleDeleteReading], [handleUpdateInitialReading]).

    JavaScript built-ins the sources call ([parseInt], [isNaN], the relational
    operators on Numbers, [Date.parse], [Array.prototype.sort]) are modelled
    after ECMA-262. *)

From Stdlib Require Import ZArith QArith Lia Lqa Bool List String Ascii.
From Stdlib Require Import Sorting.Sorted Sorting.Permutation.
From Stdlib Require Import DecimalString.
From Stdlib Require DecimalPos.
From stdpp Require Import base option list gmap.
Import ListNotations.

Local Open Scope string_scope.
Local Open Scope Z_scope.

(** ** JavaScript values *)

Module JS.

(** A JavaScript Number as the sources meet it: the result of [parseInt],
    of [Date.prototype.getTime], and differences of those.  All of them are
    NaN, an infinity, or a double with an integral value; the latter is kept
    as the integer it denotes.  The two zeros are identified: no operator the
    sources apply ([isNaN], [>=], [<], [-], [===]) tells them apart. *)
Inductive Number : Type :=
| NaN
| Finite (z : Z)
| PosInf
| NegInf.

Definition isNaN (n : Number) : bool :=
  match n with NaN => true | _ => false end.

(** IsLessThan(x, y) of ECMA-262: [None] stands for [undefined], the answer
    when an operand is NaN. *)
Definition IsLessThan (x y : Number) : option bool :=
  match x, y with
  | NaN, _ | _, NaN => None
  | Finite a, Finite b => Some (a <? b)
  | PosInf, _ => Some false
  | _, PosInf => Some true
  | _, NegInf => Some false
  | NegInf, _ => Some true
  end.

(** [x < y] *)
Definition lt (x y : Number) : bool :=
  match IsLessThan x y with Some true => true | _ => false end.

(** [x >= y]: false when IsLessThan(x, y) is true or undefined. *)
Definition ge (x y : Number) : bool :=
  match IsLessThan x y with Some false => true | _ => false end.

(** The Number value F(z) of a mathematical integer: round to nearest
    binary64, ties to even, overflow to an infinity.  Integers below 2^53 in
    magnitude are exact. *)
Definition round_magnitude (a : Z) : Z :=
  if a <? 2 ^ 53 then a
  else
    let e := Z.log2 a - 52 in
    let m := Z.shiftr a e in
    let r := Z.land a (Z.ones e) in
    let half := 2 ^ (e - 1) in
    let m' := if (half <? r) || ((r =? half) && Z.odd m) then m + 1 else m in
    Z.shiftl m' e.

Definition to_Number (z : Z) : Number :=
  let a := round_magnitude (Z.abs z) in
  if 2 ^ 1024 <=? a then (if z <? 0 then NegInf else PosInf)
  else Finite (Z.sgn z * a).

(** Strings are sequences of code units; this model keeps the code units
    0..255 of [ascii]. *)
Definition code (c : ascii) : Z := Z.of_N (N_of_ascii c).

(** StrWhiteSpaceChar: WhiteSpace and LineTerminator code units (TAB, LF, VT,
    FF, CR, SP, NBSP within the range of [ascii]). *)
Definition is_white_space (c : ascii) : bool :=
  let n := code c in
  ((9 <=? n) && (n <=? 13)) || (n =? 32) || (n =? 160).

Fixpoint trim_start (s : string) : string :=
  match s with
  | String c s' => if is_white_space c then trim_start s' else s
  | EmptyString => s
  end.

(** The value of a code unit as a digit in the given radix, if it is one. *)
Definition digit_of (radix : Z) (c : ascii) : option Z :=
  let n := code c in
  let v :=
    if (48 <=? n) && (n <=? 57) then Some (n - 48)
    else if (97 <=? n) && (n <=? 122) then Some (n - 87)
    else if (65 <=? n) && (n <=? 90) then Some (n - 55)
    else None in
  match v with
  | Some d => if d <? radix then Some d else None
  | None => None
  end.

(** The integer denoted by the longest prefix of radix-R digits; [acc] is
    [None] as long as no digit was read. *)
Fixpoint digits_prefix (radix : Z) (s : string) (acc : option Z) : option Z :=
  match s with
  | String c s' =>
      match digit_of radix c with
      | Some d => digits_prefix radix s' (Some (radix * default 0 acc + d))
      | None => acc
      end
  | EmptyString => acc
  end.

Definition strip_sign (s : string) : Z * string :=
  match s with
  | String "-" s' => (-1, s')
  | String "+" s' => (1, s')
  | _ => (1, s)
  end.

Definition strip_hex_prefix (s : string) : Z * string :=
  match s with
  | String "0" (String "x" s') => (16, s')
  | String "0" (String "X" s') => (16, s')
  | _ => (10, s)
  end.

(** [parseInt(string)] with the radix left undefined (ECMA-262, 19.2.5). *)
Definition parseInt (s : string) : Number :=
  let '(sign, s1) := strip_sign (trim_start s) in
  let '(radix, s2) := strip_hex_prefix s1 in
  match digits_prefix radix s2 None with
  | None => NaN
  | Some mathInt => to_Number (sign * mathInt)
  end.

(** [x - y], for operands that are NaN, infinite, or integers whose
    difference is rounded to a double. *)
Definition sub (x y : Number) : Number :=
  match x, y with
  | NaN, _ | _, NaN => NaN
  | Finite a, Finite b => to_Number (a - b)
  | PosInf, PosInf | NegInf, NegInf => NaN
  | PosInf, _ | _, NegInf => PosInf
  | NegInf, _ | _, PosInf => NegInf
  end.

(** Truthiness of a string: [!s] holds exactly for the empty string. *)
Definition truthy (s : string) : bool :=
  match s with EmptyString => false | _ => true end.

End JS.

(** ** Dates *)

Module Date.
Import JS.

Definition is_digit (c : ascii) : bool := (48 <=? code c) && (code c <=? 57).

Definition digit (c : ascii) : Z := code c - 48.

Definition is_leap_year (y : Z) : bool :=
  ((y mod 4 =? 0) && negb (y mod 100 =? 0)) || (y mod 400 =? 0).

Definition days_in_month (y m : Z) : Z :=
  if m =? 2 then (if is_leap_year y then 29 else 28)
  else if (m =? 4) || (m =? 6) || (m =? 9) || (m =? 11) then 30
  else 31.

(** Day number of a proleptic-Gregorian date, counted from 1970-01-01
    (MakeDay of ECMA-262). *)
Definition days_from_civil (y m d : Z) : Z :=
  let y' := if m <=? 2 then y - 1 else y in
  let era := y' / 400 in
  let yoe := y' - era * 400 in
  let doy := (153 * (if 2 <? m then m - 3 else m + 9) + 2) / 5 + d - 1 in
  let doe := yoe * 365 + yoe / 4 - yoe / 100 + doy in
  era * 146097 + doe - 719468.

Definition msPerDay : Z := 86400000.

(** [Date.parse] on the date-only form [YYYY-MM-DD] of the Date Time String
    Format, the form the reading form submits; a date-only string is UTC
    midnight, and a month outside 01-12 or a day that is not a day of the
    month makes the time value NaN (engines agree on the month; some roll a
    day such as 02-30 over instead).  Strings of any other shape are left to
    implementation-specific parsing by ECMA-262; the model gives them no time
    value. *)
Definition parse (s : string) : Number :=
  match list_ascii_of_string s with
  | [y1; y2; y3; y4; h1; m1; m2; h2; d1; d2] =>
      if forallb is_digit [y1; y2; y3; y4; m1; m2; d1; d2]
         && Ascii.eqb h1 "-" && Ascii.eqb h2 "-"
      then
        let y := 1000 * digit y1 + 100 * digit y2 + 10 * digit y3 + digit y4 in
        let m := 10 * digit m1 + digit m2 in
        let d := 10 * digit d1 + digit d2 in
        if (1 <=? m) && (m <=? 12) && (1 <=? d) && (d <=? days_in_month y m)
        then Finite (days_from_civil y m d * msPerDay)
        else NaN
      else NaN
  | _ => NaN
  end.

(** [new Date(s).getTime()] *)
Definition getTime (s : string) : Number := parse s.

End Date.

(** ** The data model *)

(** The [number] fields that are measurements are finite doubles delivered by
    JSON, kept as rationals; identifiers and the baseline are integers. *)
Module Profile.
Record t : Type := {
  id : Z;
  user_id : string;
  tenant_name : string;
  meter_number : string;
  last_consumption : option Q;
  last_reading_date : option string;
  initial_reading : option Z;
}.
End Profile.

Module Reading.
Record t : Type := {
  id : Z;
  profile_id : Z;
  date : string;
  previous : Q;
  current : Q;
  consumption : Q;
}.
End Reading.

(** ** AddReadingForm: the zod schema *)

Module Zod.

Record ZodIssue : Type := { path : list string; message : string }.

(** The outcome of [safeParse]. *)
Inductive SafeParseReturn (A : Type) : Type :=
| Success (data : A)
| Failure (issues : list ZodIssue).
Arguments Success {A} data.
Arguments Failure {A} issues.

(** A check of a string schema yields its message when it fails.  A failed
    check marks the value dirty without aborting: later checks still run. *)
Definition Check : Type := string -> option string.

(** [.min(n, msg)] *)
Definition min (n : nat) (msg : string) : Check :=
  fun val => if (String.length val <? n)%nat then Some msg else None.

(** [.regex(re, msg)], the regular expression given by its matcher. *)
Definition regex (re : string -> bool) (msg : string) : Check :=
  fun val => if re val then None else Some msg.

(** [.refine(pred, { message })] *)
Definition refine (pred : string -> bool) (msg : string) : Check :=
  fun val => if pred val then None else Some msg.

(** Issues of one key of a [z.object], in the order of the checks. *)
Definition parse_key (key : string) (checks : list Check) (val : string)
  : list ZodIssue :=
  omap (fun chk => (fun m => {| path := [key]; message := m |}) <$> chk val)
       checks.

(** zodResolver keeps, for every path, the first issue reported on it. *)
Definition first_error (p : list string) (issues : list ZodIssue)
  : option string :=
  message <$> List.find (fun i => bool_decide (path i = p)) issues.

End Zod.

Module AddReadingForm.
Import JS Zod.

Record FormValues : Type := { date : string; previous : string; current : string }.

(** [/^\d{4}-\d{2}-\d{2}$/] *)
Definition date_regex (s : string) : bool :=
  match list_ascii_of_string s with
  | [y1; y2; y3; y4; h1; m1; m2; h2; d1; d2] =>
      forallb Date.is_digit [y1; y2; y3; y4; m1; m2; d1; d2]
      && Ascii.eqb h1 "-" && Ascii.eqb h2 "-"
  | _ => false
  end.

(** [(val) => !isNaN(parseInt(val)) && parseInt(val) >= 0] *)
Definition non_negative (val : string) : bool :=
  negb (isNaN (parseInt val)) && ge (parseInt val) (Finite 0).

Definition date_checks : list Check :=
  [regex date_regex "Date must be YYYY-MM-DD"].

Definition previous_checks : list Check :=
  [min 1 "Previous reading is required";
   refine non_negative "Previous reading must be a positive integer"].

Definition current_checks : list Check :=
  [min 1 "Current reading is required";
   refine non_negative "Current reading must be a positive integer"].

(** The refinement of the whole object. *)
Definition current_ge_previous (data : FormValues) : bool :=
  let previous := parseInt (previous data) in
  let current := parseInt (current data) in
  ge current previous.

Definition cross_field_message : string :=
  "Current reading must be greater than or equal to previous reading".

Definition cross_field_issue : ZodIssue :=
  {| path := ["current"]; message := cross_field_message |}.

(** All issues of [formSchema] on [data]: the keys in declaration order, then
    the object refinement, which runs because failed string checks do not
    abort. *)
Definition formSchema_issues (data : FormValues) : list ZodIssue :=
  parse_key "date" date_checks (date data)
  ++ parse_key "previous" previous_checks (previous data)
  ++ parse_key "current" current_checks (current data)
  ++ (if current_ge_previous data then [] else [cross_field_issue]).

(** [formSchema.safeParse(data)] *)
Definition formSchema (data : FormValues) : SafeParseReturn FormValues :=
  match formSchema_issues data with
  | [] => Success data
  | issues => Failure issues
  end.

(** What the form shows under a field, and as a form-level error. *)
Definition field_error (name : string) (data : FormValues) : option string :=
  first_error [name] (formSchema_issues data).

Definition form_error (data : FormValues) : option string :=
  first_error [] (formSchema_issues data).

(** [form.handleSubmit(onSubmit)]: the validated values [onSubmit] is called
    with; [None] when validation stops the submission. *)
Definition handleSubmit (values : FormValues) : option FormValues :=
  match formSchema values with
  | Success data => Some data
  | Failure _ => None
  end.

(** The body [onSubmit] posts for the values it is called with. *)
Record Payload : Type := {
  payload_profile_id : Z;
  payload_date : string;
  payload_previous : Number;
  payload_current : Number;
}.

Definition payload (profile : Profile.t) (values : FormValues) : Payload :=
  {| payload_profile_id := Profile.id profile;
     payload_date := date values;
     payload_previous := parseInt (previous values);
     payload_current := parseInt (current values) |}.

End AddReadingForm.

(** ** ReadingsTable *)

Module ReadingsTable.
Import JS.

Section ArraySort.
Context {A : Type}.
Variable comparefn : A -> A -> Number.

(** SortCompare(x, y) > 0, a NaN from [comparefn] counting as +0: [x] is
    to be placed after [y]. *)
Definition placed_after (x y : A) : bool := lt (Finite 0) (comparefn x y).

(** [Array.prototype.sort] is stable; a stable insertion sort stands for
    the engine's algorithm.  Elements are inserted from the right, each one
    moving past the elements it is to be placed after. *)
Fixpoint insert (x : A) (l : list A) : list A :=
  match l with
  | [] => [x]
  | y :: l' => if placed_after x y then y :: insert x l' else x :: l
  end.

Definition sorted (l : list A) : list A := fold_right insert [] l.
End ArraySort.

(** A JavaScript array is an object: the component is handed a reference to
    the array its caller holds, and the store maps references to contents. *)
Abbreviation ref := positive.
Abbreviation store := (gmap positive (list Reading.t)).

(** [arr.sort(comparefn)] sorts the array behind [arr] in place (and returns
    the same reference). *)
Definition Array_sort (comparefn : Reading.t -> Reading.t -> Number)
    (arr : ref) (h : store) : store :=
  alter (sorted comparefn) arr h.

(** [(a, b) => new Date(b.date).getTime() - new Date(a.date).getTime()] *)
Definition by_date_desc (a b : Reading.t) : Number :=
  sub (Date.getTime (Reading.date b)) (Date.getTime (Reading.date a)).

(** The class of the consumption cell. *)
Definition consumption_class (consumption : Q) : string :=
  if Qle_bool 200 consumption then "text-red-600 dark:text-red-400"
  else if Qle_bool 150 consumption then "text-orange-600 dark:text-orange-400"
  else if Qle_bool 100 consumption then "text-yellow-900 dark:text-yellow-400"
  else "text-green-600 dark:text-green-400".

(** One [TableRow]: its key, the reading whose date (through the locale's
    date format), previous, current and consumption fill the cells, the class
    of the consumption cell, and the id its Delete action passes to
    [onDeleteReading]. *)
Record Row : Type := {
  key : Z;
  cells : Reading.t;
  className : string;
  delete_id : Z;
}.

Definition row (reading : Reading.t) : Row :=
  {| key := Reading.id reading;
     cells := reading;
     className := consumption_class (Reading.consumption reading);
     delete_id := Reading.id reading |}.

Inductive View : Type :=
| NoReadings
| Table (rows : list Row).

Definition rows_of (v : View) : list Row :=
  match v with NoReadings => [] | Table rows => rows end.

(** The component: the store after rendering, and what is rendered. *)
Definition ReadingsTable (readings : ref) (h : store) : store * View :=
  if (length (default [] (h !! readings)) =? 0)%nat then (h, NoReadings)
  else
    let h' := Array_sort by_date_desc readings h in
    (h', Table (map row (default [] (h' !! readings)))).

(** The four severity bands, under the names the specification gives them
    (from the top: highest, high, medium, normal), each with the colour class
    that renders it. *)
Inductive Band : Type := Highest | High | Medium | Normal.

Definition band_class (b : Band) : string :=
  match b with
  | Highest => "text-red-600 dark:text-red-400"
  | High => "text-orange-600 dark:text-orange-400"
  | Medium => "text-yellow-900 dark:text-yellow-400"
  | Normal => "text-green-600 dark:text-green-400"
  end.

End ReadingsTable.

(** ** ProfileHeader *)

Module ProfileHeader.
Import JS.

(** What an event handler of the component can do: update the component's
    own input state, or call the callback its parent passed in. *)
Inductive Effect : Type :=
| setInitialReadingInput (value : string)
| onUpdateInitialReading (initialReading : Number).

(** The input's [onChange]. *)
Definition handleChange (value : string) : list Effect :=
  [setInitialReadingInput value].

(** [handleSaveInitialReading], as the effects it performs, in order. *)
Definition handleSaveInitialReading (initialReadingInput : string)
  : list Effect :=
  if negb (truthy initialReadingInput)
     || isNaN (parseInt initialReadingInput)
     || lt (parseInt initialReadingInput) (Finite 0)
  then []
  else [onUpdateInitialReading (parseInt initialReadingInput)].

End ProfileHeader.

(** ** Asynchronous handlers *)

(** An [async] function of a page is a tree: it updates the page state, or
    suspends on the identity provider or on [fetch] and resumes with whatever
    the promise settles to.  [try]/[catch]/[finally] are combinators on such
    trees. *)
Module Async.

(** A thrown value, as [catch (err)] looks at it: an instance of [Error] with
    its message, or something else. *)
Inductive Exn : Type :=
| Error (message : string)
| NotAnError.

Inductive Settled (A : Type) : Type :=
| Fulfilled (a : A)
| Rejected (e : Exn).
Arguments Fulfilled {A} a.
Arguments Rejected {A} e.

(** A parsed JSON body, as far as the handlers look into it: whether it is an
    array (whose elements the state's type annotation takes to be entities
    [E]), whether it is null, and the [detail] property of an object, a string
    in the backend's error bodies. *)
Inductive Json (E : Type) : Type :=
| JNull
| JBoolean (b : bool)
| JNumber (n : Q)
| JString (s : string)
| JArray (elements : list E)
| JObject (detail : option string).
Arguments JNull {E}.
Arguments JBoolean {E} b.
Arguments JNumber {E} n.
Arguments JString {E} s.
Arguments JArray {E} elements.
Arguments JObject {E} detail.

Definition isArray {E} (data : Json E) : bool :=
  match data with JArray _ => true | _ => false end.

Record Response (E : Type) : Type := {
  status : Z;
  json : Settled (Json E);   (* what [response.json()] settles to *)
}.
Arguments status {E} r.
Arguments json {E} r.

(** [response.ok]: the status is in the range 200-299. *)
Definition ok {E} (response : Response E) : bool :=
  (200 <=? status response) && (status response <=? 299).

Record Request : Type := {
  method : string;
  url : string;
  authorization : string;
}.

Inductive t (S E A : Type) : Type :=
| Ret (a : A)
| Throw (e : Exn)
| SetState (f : S -> S) (k : t S E A)
| RouterPush (href : string) (k : t S E A)
| AwaitToken (k : Settled (option string) -> t S E A)
| AwaitFetch (req : Request) (k : Settled (Response E) -> t S E A).
Arguments Ret {S E A} a.
Arguments Throw {S E A} e.
Arguments SetState {S E A} f k.
Arguments RouterPush {S E A} href k.
Arguments AwaitToken {S E A} k.
Arguments AwaitFetch {S E A} req k.

Section Combinators.
Context {S E : Type}.

Fixpoint bind {A B} (m : t S E A) (f : A -> t S E B) : t S E B :=
  match m with
  | Ret a => f a
  | Throw e => Throw e
  | SetState g k => SetState g (bind k f)
  | RouterPush href k => RouterPush href (bind k f)
  | AwaitToken k => AwaitToken (fun r => bind (k r) f)
  | AwaitFetch req k => AwaitFetch req (fun r => bind (k r) f)
  end.

(** [try { m } catch (err) { handler err }] *)
Fixpoint try_catch {A} (m : t S E A) (handler : Exn -> t S E A) : t S E A :=
  match m with
  | Ret a => Ret a
  | Throw e => handler e
  | SetState g k => SetState g (try_catch k handler)
  | RouterPush href k => RouterPush href (try_catch k handler)
  | AwaitToken k => AwaitToken (fun r => try_catch (k r) handler)
  | AwaitFetch req k => AwaitFetch req (fun r => try_catch (k r) handler)
  end.

(** [try { m } finally { cleanup }] *)
Fixpoint finally {A} (m : t S E A) (cleanup : t S E unit) : t S E A :=
  match m with
  | Ret a => bind cleanup (fun _ => Ret a)
  | Throw e => bind cleanup (fun _ => Throw e)
  | SetState g k => SetState g (finally k cleanup)
  | RouterPush href k => RouterPush href (finally k cleanup)
  | AwaitToken k => AwaitToken (fun r => finally (k r) cleanup)
  | AwaitFetch req k => AwaitFetch req (fun r => finally (k r) cleanup)
  end.

(** [await p]: the value of a fulfilled promise; a rejection is thrown. *)
Definition settle {A} (r : Settled A) : t S E A :=
  match r with Fulfilled a => Ret a | Rejected e => Throw e end.

Definition set (f : S -> S) : t S E unit := SetState f (Ret tt).
Definition push (href : string) : t S E unit := RouterPush href (Ret tt).
Definition getToken : t S E (option string) := AwaitToken settle.
Definition fetch (req : Request) : t S E (Response E) := AwaitFetch req settle.
End Combinators.

Declare Scope async_scope.
Delimit Scope async_scope with async.
Notation "x <- m ;; k" := (bind m (fun x => k))
  (at level 100, m at next level, right associativity) : async_scope.
Notation "m ;; k" := (bind m (fun _ => k))
  (at level 100, right associativity) : async_scope.

(** The world a handler runs in: what the identity provider and the backend
    answer. *)
Record World (E : Type) : Type := {
  token : Settled (option string);
  respond : Request -> Settled (Response E);
}.
Arguments token {E} w.
Arguments respond {E} w.

(** What can be observed of a run: the page state at every suspension, the
    requests sent and the navigations. *)
Inductive Event (S : Type) : Type :=
| WaitsForToken (now : S)
| WaitsForResponse (req : Request) (now : S)
| Navigates (href : string).
Arguments WaitsForToken {S} now.
Arguments WaitsForResponse {S} req now.
Arguments Navigates {S} href.

Record Outcome (S A : Type) : Type := {
  trace : list (Event S);
  final : S;
  result : Exn + A;
}.
Arguments trace {S A} o.
Arguments final {S A} o.
Arguments result {S A} o.

Definition log {S A} (ev : Event S) (o : Outcome S A) : Outcome S A :=
  {| trace := ev :: trace o; final := final o; result := result o |}.

(** The run of one handler on its own: the state is changed by its
    [SetState]s only, and each suspension is recorded with the state it leaves
    on display. *)
Fixpoint run {S E A} (w : World E) (m : t S E A) (s : S) : Outcome S A :=
  match m with
  | Ret a => {| trace := []; final := s; result := inr a |}
  | Throw e => {| trace := []; final := s; result := inl e |}
  | SetState f k => run w k (f s)
  | RouterPush href k => log (Navigates href) (run w k s)
  | AwaitToken k => log (WaitsForToken s) (run w (k (token w)) s)
  | AwaitFetch req k => log (WaitsForResponse req s) (run w (k (respond w req)) s)
  end.

(** The state a suspension was observed in. *)
Definition snapshot {S} (ev : Event S) : option S :=
  match ev with
  | WaitsForToken now | WaitsForResponse _ now => Some now
  | Navigates _ => None
  end.

Definition request_of {S} (ev : Event S) : option Request :=
  match ev with WaitsForResponse req _ => Some req | _ => None end.

(** [err instanceof Error ? err.message : "An unexpected error occurred"] *)
Definition message_of (err : Exn) : string :=
  match err with
  | Error message => message
  | NotAnError => "An unexpected error occurred"
  end.

(** [!token] *)
Definition no_token (token : option string) : bool :=
  match token with Some s => negb (JS.truthy s) | None => true end.

(** Template-literal conversion of an integer Number. *)
Definition to_string (n : Z) : string := NilZero.string_of_int (Z.to_int n).

(** [errorData.detail || fallback], as the argument of [new Error]: reading a
    property of null throws a TypeError (the message is the engine's); a
    missing or empty [detail] gives the fallback. *)
Definition detail_or {S E} (errorData : Json E) (fallback : string)
  : t S E string :=
  match errorData with
  | JNull => Throw (Error "Cannot read properties of null (reading 'detail')")
  | JObject (Some detail) => Ret (if JS.truthy detail then detail else fallback)
  | _ => Ret fallback
  end.

End Async.

(** ** Dashboard *)

Module Dashboard.
Import Async.
Local Open Scope async_scope.

Record State : Type := {
  profiles : list Profile.t;
  isLoading : bool;
  error : option string;
  authChecked : bool;
}.

(** The [useState] initial values. *)
Definition initial : State :=
  {| profiles := []; isLoading := true; error := None; authChecked := false |}.

Definition setProfiles (f : list Profile.t -> list Profile.t) (s : State) : State :=
  {| profiles := f (profiles s); isLoading := isLoading s;
     error := error s; authChecked := authChecked s |}.

Definition setIsLoading (b : bool) (s : State) : State :=
  {| profiles := profiles s; isLoading := b;
     error := error s; authChecked := authChecked s |}.

Definition setError (e : option string) (s : State) : State :=
  {| profiles := profiles s; isLoading := isLoading s;
     error := e; authChecked := authChecked s |}.

Definition setAuthChecked (b : bool) (s : State) : State :=
  {| profiles := profiles s; isLoading := isLoading s;
     error := error s; authChecked := b |}.

Definition session_expired : string := "Session expired, please sign in again".
Definition fetch_failed : string := "Failed to fetch profiles".

Definition get_profiles (token : string) : Request :=
  {| method := "GET";
     url := "http://localhost:8000/api/profiles";
     authorization := String.append "Bearer " token |}.

Definition delete_profile (profileId : Z) (token : string) : Request :=
  {| method := "DELETE";
     url := String.append "http://localhost:8000/api/profiles/" (to_string profileId);
     authorization := String.append "Bearer " token |}.

(** The effect run on mount; [isSignedIn] is [None] while the identity
    provider has not resolved. *)
Definition fetchProfiles (isSignedIn : option bool) : Async.t State Profile.t unit :=
  match isSignedIn with
  | None => Ret tt
  | Some signedIn =>
      set (setAuthChecked true) ;;
      if negb signedIn then
        set (setError (Some "Please sign in to view your dashboard")) ;;
        set (setIsLoading false) ;;
        push "/sign-in"
      else
        finally
          (try_catch
             (token <- getToken ;;
              if no_token token then Throw (Error "Authentication token not found")
              else
                response <- fetch (get_profiles (default "" token)) ;;
                if negb (ok response) then
                  Throw (Error (if status response =? 401 then session_expired
                                else fetch_failed))
                else
                  data <- settle (json response) ;;
                  set (setProfiles (fun _ => match data with
                                             | JArray elements => elements
                                             | _ => []
                                             end)) ;;
                  set (setError None))
             (fun err => set (setError (Some (message_of err)))))
          (set (setIsLoading false))
  end.

Definition handleDeleteProfile (profileId : Z) : Async.t State Profile.t unit :=
  finally
    (try_catch
       (set (setIsLoading true) ;;
        set (setError None) ;;
        token <- getToken ;;
        if no_token token then Throw (Error "Authentication token not found")
        else
          response <- fetch (delete_profile profileId (default "" token)) ;;
          (if negb (ok response) then
             errorData <- settle (json response) ;;
             message <- detail_or errorData
                          (String.append "Failed to delete profile: "
                                         (to_string (status response))) ;;
             Throw (Error message)
           else Ret tt) ;;
          set (setProfiles
                 (List.filter (fun profile => negb (Profile.id profile =? profileId)))) ;;
          set (setError None))
       (fun err => set (setError (Some (message_of err)))))
    (set (setIsLoading false)).

End Dashboard.

(** ** MeterDetails *)

Module MeterDetails.
Import Async.
Local Open Scope async_scope.

Record State : Type := {
  isLoading : bool;
  error : option string;
  readings : list Reading.t;
  profile : option Profile.t;
  authChecked : bool;
}.

Definition initial : State :=
  {| isLoading := true; error := None; readings := []; profile := None;
     authChecked := false |}.

Definition setReadings (f : list Reading.t -> list Reading.t) (s : State) : State :=
  {| isLoading := isLoading s; error := error s; readings := f (readings s);
     profile := profile s; authChecked := authChecked s |}.

Definition setError (e : option string) (s : State) : State :=
  {| isLoading := isLoading s; error := e; readings := readings s;
     profile := profile s; authChecked := authChecked s |}.

(** [useAuth()]: [isSignedIn] is [None] while unresolved, [userId] is [None]
    when null or undefined. *)
Record Auth : Type := { isSignedIn : option bool; userId : option string }.

(** [!isSignedIn || !userId] *)
Definition signed_out (auth : Auth) : bool :=
  negb (default false (isSignedIn auth)) || no_token (userId auth).

Definition delete_reading (readingId : Z) (token : string) : Request :=
  {| method := "DELETE";
     url := String.append "http://localhost:8000/api/readings/" (to_string readingId);
     authorization := String.append "Bearer " token |}.

Definition handleAddReading (newReading : Reading.t) : Async.t State Reading.t unit :=
  set (setReadings (fun prevReadings => (prevReadings ++ [newReading])%list)) ;;
  set (setError None).

Definition handleDeleteReading (auth : Auth) (readingId : Z)
  : Async.t State Reading.t unit :=
  if signed_out auth then set (setError (Some "Please sign in to delete reading"))
  else
    try_catch
      (token <- getToken ;;
       if no_token token then Throw (Error "Authentication token not found")
       else
         response <- fetch (delete_reading readingId (default "" token)) ;;
         (if negb (ok response) then
            errorData <- settle (json response) ;;
            message <- detail_or errorData
                         (String.append "Failed to delete reading: "
                                        (to_string (status response))) ;;
            Throw (Error message)
          else Ret tt) ;;
         set (setReadings
                (List.filter (fun reading => negb (Reading.id reading =? readingId)))) ;;
         set (setError None))
      (fun err => set (setError (Some (message_of err)))).

End MeterDetails.

(** ** Vocabulary of the properties *)

Module Props.
Import JS.

(** The reading's date parses to a time value. *)
Definition valid_date (r : Reading.t) : Prop :=
  isNaN (Date.getTime (Reading.date r)) = false.

(** [a] may be listed before [b] in descending date order: [a] is not
    earlier than [b]. *)
Definition date_desc (a b : Reading.t) : Prop :=
  lt (Date.getTime (Reading.date a)) (Date.getTime (Reading.date b)) = false.

(** Descending by date: every reading is not earlier than all that follow. *)
Definition descending (l : list Reading.t) : Prop := StronglySorted date_desc l.

(** A reading with the given id and date, for examples. *)
Definition reading (id : Z) (date : string) : Reading.t :=
  {| Reading.id := id; Reading.profile_id := 1; Reading.date := date;
     Reading.previous := 0; Reading.current := 0; Reading.consumption := 0 |}.

Definition profile (id : Z) : Profile.t :=
  {| Profile.id := id; Profile.user_id := "user_1"; Profile.tenant_name := "tenant";
     Profile.meter_number := "M-1"; Profile.last_consumption := None;
     Profile.last_reading_date := None; Profile.initial_reading := None |}.

(** The baseline candidates [handleSaveInitialReading] turns down: absent,
    not a number, or negative. *)
Definition turned_down (input : string) : Prop :=
  input = "" \/ parseInt input = NaN \/ lt (parseInt input) (Finite 0) = true.

End Props.

(** ** Vocabulary of the handler properties *)

Module HandlerProps.
Import Async.

(** The identity provider hands out the token [tk] and the backend answers
    the request [req] with the response [r]. *)
Definition answers {E} (w : World E) (tk : string) (req : Request)
    (r : Response E) : Prop :=
  token w = Fulfilled (Some tk)
  /\ JS.truthy tk = true
  /\ respond w req = Fulfilled r.

(** [after] is [before] without the items whose id is [id], the others kept
    in their order. *)
Definition removed {A} (id_of : A -> Z) (id : Z) (before after : list A) : Prop :=
  after = List.filter (fun x => negb (id_of x =? id)) before
  /\ (forall x, In x after <-> In x before /\ id_of x <> id).

(** Up to and including the wait for the response, the observed states all
    show the list the handler started with; and the handler did wait for the
    response to [req]. *)
Definition untouched_while_waiting {S A} (list_of : S -> list A) (req : Request)
    (s : S) (events : list (Event S)) : Prop :=
  Forall (fun ev => forall now, snapshot ev = Some now -> list_of now = list_of s)
         events
  /\ omap request_of events = [req].

(** A world for examples: the token is "token" and every request is answered
    with the given status and body. *)
Definition backend {E} (status : Z) (body : Settled (Json E)) : World E :=
  {| token := Fulfilled (Some "token");
     respond := fun _ => Fulfilled {| status := status; json := body |} |}.

End HandlerProps.

(** ** Strings: case mapping, splitting, searching *)

Module Str.
Import JS.

(** [String.prototype.toLowerCase] on one code unit of the Latin-1 range:
    A-Z and the accented capitals (all of 192-222 but the multiplication
    sign) move 32 up. *)
Definition lower_unit (c : ascii) : ascii :=
  let n := code c in
  if ((65 <=? n) && (n <=? 90))
     || ((192 <=? n) && (n <=? 222) && negb (n =? 215))
  then ascii_of_N (Z.to_N (n + 32))
  else c.

(** [String.prototype.toUpperCase] on one code unit of the Latin-1 range:
    a-z and the accented small letters (all of 224-254 but the division
    sign) move 32 down, and the sharp s becomes [SS].  The micro sign (181)
    and the y with diaeresis (255) have upper-case forms outside the range of
    the model's strings and are left as they are here; the properties below
    exclude them. *)
Definition upper_unit (c : ascii) : string :=
  let n := code c in
  if ((97 <=? n) && (n <=? 122))
     || ((224 <=? n) && (n <=? 254) && negb (n =? 247))
  then String (ascii_of_N (Z.to_N (n - 32))) EmptyString
  else if n =? 223 then "SS"
  else String c EmptyString.

Fixpoint toLowerCase (s : string) : string :=
  match s with
  | String c s' => String (lower_unit c) (toLowerCase s')
  | EmptyString => EmptyString
  end.

Fixpoint toUpperCase (s : string) : string :=
  match s with
  | String c s' => String.append (upper_unit c) (toUpperCase s')
  | EmptyString => EmptyString
  end.

(** [s.split(" ")]: the pieces between single spaces; never empty. *)
Fixpoint split_space (s : string) : list string :=
  match s with
  | String c s' =>
      if Ascii.eqb c " " then EmptyString :: split_space s'
      else match split_space s' with
           | w :: ws => String c w :: ws
           | [] => [String c EmptyString]
           end
  | EmptyString => [EmptyString]
  end.

(** [words.join(" ")] *)
Fixpoint join_space (words : list string) : string :=
  match words with
  | [] => EmptyString
  | [w] => w
  | w :: ws => String.append w (String " " (join_space ws))
  end.

(** [word.charAt(0)] and [word.slice(1)] *)
Definition charAt0 (word : string) : string :=
  match word with String c _ => String c EmptyString | EmptyString => EmptyString end.

Definition slice1 (word : string) : string :=
  match word with String _ w => w | EmptyString => EmptyString end.

Fixpoint startsWith (prefix s : string) : bool :=
  match prefix, s with
  | EmptyString, _ => true
  | String a p, String b s' => Ascii.eqb a b && startsWith p s'
  | String _ _, EmptyString => false
  end.

(** [s.includes(needle)] *)
Fixpoint includes (needle s : string) : bool :=
  startsWith needle s
  || match s with
     | String _ s' => includes needle s'
     | EmptyString => false
     end.

End Str.

(** ** ProfileList *)

Module ProfileList.
Import JS Str.

(** [capitalizeFirstLetter] (the same helper is declared in ProfileHeader). *)
Definition capitalizeFirstLetter (str : string) : string :=
  if negb (truthy str) then EmptyString
  else
    join_space
      (map (fun word => String.append (toUpperCase (charAt0 word))
                                      (toLowerCase (slice1 word)))
           (split_space str)).

(** One [ProfileCard]: its key, the target of its two links, the title, the
    meter number, the last consumption when there is one, and the id its
    Delete action passes to [onDelete] (the date line goes through the
    locale's date format and is left out). *)
Record Card : Type := {
  key : Z;
  href : string;
  title : string;
  meter : string;
  last_reading : option Q;
  delete_id : Z;
}.

Definition ProfileCard (profile : Profile.t) : Card :=
  {| key := Profile.id profile;
     href := String.append "/meter/" (Async.to_string (Profile.id profile));
     title := capitalizeFirstLetter (Profile.tenant_name profile);
     meter := Profile.meter_number profile;
     last_reading := Profile.last_consumption profile;
     delete_id := Profile.id profile |}.

Inductive View : Type :=
| NoMeters                   (* the invitation to add a first meter *)
| Grid (cards : list Card).

Definition ProfileList (profiles : list Profile.t) : View :=
  if (length profiles =? 0)%nat then NoMeters
  else Grid (map ProfileCard profiles).

Definition cards_of (v : View) : list Card :=
  match v with NoMeters => [] | Grid cards => cards end.

End ProfileList.

(** ** What the pages render *)

Module DashboardView.
Import JS Str.

(** The error banner: its text, and whether it offers the link to sign in
    again. *)
Record Alert : Type := { text : string; sign_in_again : bool }.

Inductive View : Type :=
| CheckingAuthentication
| PleaseSignIn
| Page (spinner : bool) (alert : option Alert) (list : option ProfileList.View).

(** Truthiness of [error]: a non-empty string. *)
Definition has_error (error : option string) : bool :=
  match error with Some e => truthy e | None => false end.

(** [error && <Alert>...]: the banner, with the link when
    [error.includes("Session")]. *)
Definition banner (error : option string) : option Alert :=
  if has_error error
  then Some {| text := default EmptyString error;
               sign_in_again := includes "Session" (default EmptyString error) |}
  else None.

(** The return value of the [Dashboard] component. *)
Definition render (isSignedIn : option bool) (s : Dashboard.State) : View :=
  if negb (Dashboard.authChecked s) then CheckingAuthentication
  else if negb (default false isSignedIn) then PleaseSignIn
  else
    Page (Dashboard.isLoading s)
         (banner (Dashboard.error s))
         (if negb (Dashboard.isLoading s) && negb (has_error (Dashboard.error s))
          then Some (ProfileList.ProfileList (Dashboard.profiles s))
          else None).

End DashboardView.

(** ** Seeding the inputs from the profile *)

Module Seed.
Import JS.

(** [profile.initial_reading?.toString() || ""] *)
Definition initial_reading_text (profile : Profile.t) : string :=
  match Profile.initial_reading profile with
  | Some n => if truthy (Async.to_string n) then Async.to_string n else EmptyString
  | None => EmptyString
  end.

(** The initial state of [initialReadingInput] in ProfileHeader. *)
Definition initialReadingInput (profile : Profile.t) : string :=
  initial_reading_text profile.

(** The [defaultValues] of the reading form, and the values [form.reset] puts
    back after a submission; [today] is
    [new Date().toISOString().split("T")[0]]. *)
Definition defaultValues (today : string) (profile : Profile.t)
  : AddReadingForm.FormValues :=
  {| AddReadingForm.date := today;
     AddReadingForm.previous := initial_reading_text profile;
     AddReadingForm.current := EmptyString |}.

End Seed.

(** ** Vocabulary of the further properties *)

Module MoreProps.
Import JS.

(** The reading's date is the time value [t]. *)
Definition has_time (t : Z) (r : Reading.t) : bool :=
  match Date.getTime (Reading.date r) with
  | Finite z => z =? t
  | _ => false
  end.

(** The rows shown for a list of readings held in a one-array store. *)
Definition rows_for (l : list Reading.t) : list ReadingsTable.Row :=
  ReadingsTable.rows_of
    (snd (ReadingsTable.ReadingsTable 1%positive {[ 1%positive := l ]})).

(** The code units whose upper-case form is one code unit of the model's
    strings: all but the micro sign, the sharp s and the y with diaeresis. *)
Definition plain_unit (c : ascii) : bool :=
  negb ((code c =? 181) || (code c =? 223) || (code c =? 255)).

Fixpoint plain (s : string) : bool :=
  match s with
  | String c s' => plain_unit c && plain s'
  | EmptyString => true
  end.

(** What [capitalizeFirstLetter] makes of one word. *)
Definition cap_word (word : string) : string :=
  String.append (Str.toUpperCase (Str.charAt0 word)) (Str.toLowerCase (Str.slice1 word)).

(** [capitalizeFirstLetter], read letter by letter: [start] tells whether
    the next letter begins a word. *)
Fixpoint capitalized (start : bool) (s : string) : string :=
  match s with
  | String c s' =>
      if Ascii.eqb c " " then String " " (capitalized true s')
      else String.append
             (if start then Str.upper_unit c else String (Str.lower_unit c) EmptyString)
             (capitalized false s')
  | EmptyString => EmptyString
  end.

(** The cards shown for a list of profiles. *)
Definition cards_for (l : list Profile.t) : list ProfileList.Card :=
  ProfileList.cards_of (ProfileList.ProfileList l).

End MoreProps.

(** ** The backend calls that carry or return data *)

(** The handlers below post bodies and use the bodies they get back, so a
    request is kept with its payload and a response with its body.  A
    successful response carries its parsed body at the type the handler's use
    of it is annotated with; an unsuccessful one carries its status and
    whatever JSON came with it. *)
Module Api.
Import Async.

Inductive Call : Type :=
| PostProfile (tenant_name meter_number : string)
| GetProfile (profileId : string)
| PatchInitialReading (profileId : string) (initial_reading : JS.Number)
| GetReadings (profileId : string)
| PostReading (payload : AddReadingForm.Payload).

(** What [await response.json()] of a successful response is used as. *)
Definition Body (call : Call) : Type :=
  match call with
  | PostProfile _ _ => unit            (* not read *)
  | GetProfile _ => Profile.t
  | PatchInitialReading _ _ => Profile.t
  | GetReadings _ => list Reading.t
  | PostReading _ => Reading.t
  end.

(** A response, split by [response.ok]. *)
Inductive Reply (B : Type) : Type :=
| Ok (body : Settled B)
| NotOk (status : Z) (errorData : Settled (Json unit)).
Arguments Ok {B} body.
Arguments NotOk {B} status errorData.

Inductive t (S A : Type) : Type :=
| Ret (a : A)
| Throw (e : Exn)
| SetState (f : S -> S) (k : t S A)
| RouterPush (href : string) (k : t S A)
| AwaitToken (k : Settled (option string) -> t S A)
| AwaitFetch (bearer : string) (call : Call)
             (k : Settled (Reply (Body call)) -> t S A).
Arguments Ret {S A} a.
Arguments Throw {S A} e.
Arguments SetState {S A} f k.
Arguments RouterPush {S A} href k.
Arguments AwaitToken {S A} k.
Arguments AwaitFetch {S A} bearer call k.

Section Combinators.
Context {S : Type}.

Fixpoint bind {A B} (m : t S A) (f : A -> t S B) : t S B :=
  match m with
  | Ret a => f a
  | Throw e => Throw e
  | SetState g k => SetState g (bind k f)
  | RouterPush href k => RouterPush href (bind k f)
  | AwaitToken k => AwaitToken (fun r => bind (k r) f)
  | AwaitFetch bearer call k => AwaitFetch bearer call (fun r => bind (k r) f)
  end.

Fixpoint try_catch {A} (m : t S A) (handler : Exn -> t S A) : t S A :=
  match m with
  | Ret a => Ret a
  | Throw e => handler e
  | SetState g k => SetState g (try_catch k handler)
  | RouterPush href k => RouterPush href (try_catch k handler)
  | AwaitToken k => AwaitToken (fun r => try_catch (k r) handler)
  | AwaitFetch bearer call k =>
      AwaitFetch bearer call (fun r => try_catch (k r) handler)
  end.

Fixpoint finally {A} (m : t S A) (cleanup : t S unit) : t S A :=
  match m with
  | Ret a => bind cleanup (fun _ => Ret a)
  | Throw e => bind cleanup (fun _ => Throw e)
  | SetState g k => SetState g (finally k cleanup)
  | RouterPush href k => RouterPush href (finally k cleanup)
  | AwaitToken k => AwaitToken (fun r => finally (k r) cleanup)
  | AwaitFetch bearer call k =>
      AwaitFetch bearer call (fun r => finally (k r) cleanup)
  end.

Definition settle {A} (r : Settled A) : t S A :=
  match r with Fulfilled a => Ret a | Rejected e => Throw e end.

Definition set (f : S -> S) : t S unit := SetState f (Ret tt).
Definition push (href : string) : t S unit := RouterPush href (Ret tt).
Definition getToken : t S (option string) := AwaitToken settle.
Definition fetch (bearer : string) (call : Call) : t S (Reply (Body call)) :=
  AwaitFetch bearer call settle.

(** [errorData.detail || fallback], as in [Async.detail_or]. *)
Definition detail_or (errorData : Json unit) (fallback : string) : t S string :=
  match errorData with
  | JNull => Throw (Error "Cannot read properties of null (reading 'detail')")
  | JObject (Some detail) => Ret (if JS.truthy detail then detail else fallback)
  | _ => Ret fallback
  end.
End Combinators.

Declare Scope api_scope.
Delimit Scope api_scope with api.
Notation "x <- m ;; k" := (bind m (fun x => k))
  (at level 100, m at next level, right associativity) : api_scope.
Notation "m ;; k" := (bind m (fun _ => k))
  (at level 100, right associativity) : api_scope.

Record World : Type := {
  token : Settled (option string);
  respond : forall (bearer : string) (call : Call), Settled (Reply (Body call));
}.

Inductive Event (S : Type) : Type :=
| WaitsForToken (now : S)
| WaitsForResponse (bearer : string) (call : Call) (now : S)
| Navigates (href : string).
Arguments WaitsForToken {S} now.
Arguments WaitsForResponse {S} bearer call now.
Arguments Navigates {S} href.

Record Outcome (S A : Type) : Type := {
  trace : list (Event S);
  final : S;
  result : Exn + A;
}.
Arguments trace {S A} o.
Arguments final {S A} o.
Arguments result {S A} o.

Definition log {S A} (ev : Event S) (o : Outcome S A) : Outcome S A :=
  {| trace := ev :: trace o; final := final o; result := result o |}.

(** The run of one handler on its own, as [Async.run]. *)
Fixpoint run {S A} (w : World) (m : t S A) (s : S) : Outcome S A :=
  match m with
  | Ret a => {| trace := []; final := s; result := inr a |}
  | Throw e => {| trace := []; final := s; result := inl e |}
  | SetState f k => run w k (f s)
  | RouterPush href k => log (Navigates href) (run w k s)
  | AwaitToken k => log (WaitsForToken s) (run w (k (token w)) s)
  | AwaitFetch bearer call k =>
      log (WaitsForResponse bearer call s) (run w (k (respond w bearer call)) s)
  end.

(** The calls sent, with their bearer tokens, and the navigations. *)
Definition sent {S} (ev : Event S) : option (string * Call) :=
  match ev with WaitsForResponse bearer call _ => Some (bearer, call) | _ => None end.

Definition navigation {S} (ev : Event S) : option string :=
  match ev with Navigates href => Some href | _ => None end.

End Api.

(** ** AddReadingForm: submitting *)

Module ReadingForm.
Import Async Api AddReadingForm.
Local Open Scope api_scope.

(** The props of the component, over the state [S] they act on. *)
Record Props (S : Type) : Type := {
  profile : Profile.t;
  onAddReading : Reading.t -> S -> S;
  setError : option string -> S -> S;
  isSignedIn : bool;
  userId : option string;
}.
Arguments profile {S} p.
Arguments onAddReading {S} p.
Arguments setError {S} p.
Arguments isSignedIn {S} p.
Arguments userId {S} p.

(** [onSubmit]; [reset] is [form.reset] and [today] the date it puts back. *)
Definition onSubmit {S} (today : string) (reset : FormValues -> S -> S)
    (props : Props S) (values : FormValues) : Api.t S unit :=
  if negb (isSignedIn props) || no_token (userId props) then
    set (setError props (Some "Please sign in to add a reading"))
  else
    set (setError props None) ;;
    try_catch
      (token <- getToken ;;
       if no_token token then Throw (Error "Authentication token not found")
       else
         response <- fetch (default "" token)
                           (PostReading (payload (profile props) values)) ;;
         match response with
         | NotOk status errorData =>
             errorData <- settle errorData ;;
             message <- detail_or errorData
                          (String.append "Failed to add reading: " (to_string status)) ;;
             Throw (Error message)
         | Ok body =>
             newReading <- settle body ;;
             set (onAddReading props newReading) ;;
             set (reset (Seed.defaultValues today (profile props)))
         end)
      (fun err => set (setError props (Some (message_of err)))).

(** [form.handleSubmit(onSubmit)]: validation first, [onSubmit] on the
    validated values only. *)
Definition submit {S} (today : string) (reset : FormValues -> S -> S)
    (props : Props S) (values : FormValues) : Api.t S unit :=
  match handleSubmit values with
  | Some data => onSubmit today reset props data
  | None => Ret tt
  end.

End ReadingForm.

(** ** MeterDetails: loading and the baseline *)

Module MeterPage.
Import Async Api.
Local Open Scope api_scope.

Definition setProfile (p : option Profile.t) (s : MeterDetails.State)
  : MeterDetails.State :=
  {| MeterDetails.isLoading := MeterDetails.isLoading s;
     MeterDetails.error := MeterDetails.error s;
     MeterDetails.readings := MeterDetails.readings s;
     MeterDetails.profile := p;
     MeterDetails.authChecked := MeterDetails.authChecked s |}.

Definition setIsLoading (b : bool) (s : MeterDetails.State) : MeterDetails.State :=
  {| MeterDetails.isLoading := b;
     MeterDetails.error := MeterDetails.error s;
     MeterDetails.readings := MeterDetails.readings s;
     MeterDetails.profile := MeterDetails.profile s;
     MeterDetails.authChecked := MeterDetails.authChecked s |}.

Definition setAuthChecked (b : bool) (s : MeterDetails.State) : MeterDetails.State :=
  {| MeterDetails.isLoading := MeterDetails.isLoading s;
     MeterDetails.error := MeterDetails.error s;
     MeterDetails.readings := MeterDetails.readings s;
     MeterDetails.profile := MeterDetails.profile s;
     MeterDetails.authChecked := b |}.


Definition handleUpdateInitialReading (profile : option Profile.t)
    (profileId : string) (initialReading : JS.Number)
  : Api.t MeterDetails.State unit :=
  match profile with
  | None => Ret tt
  | Some _ =>
      try_catch
        (token <- getToken ;;
         if no_token token then Throw (Error "Authentication token not found")
         else
           response <- fetch (default "" token)
                             (PatchInitialReading profileId initialReading) ;;
           match response with
           | NotOk status errorData =>
               errorData <- settle errorData ;;
               message <- detail_or errorData
                            (String.append "Failed to update initial reading: "
                                           (to_string status)) ;;
               Throw (Error message)
           | Ok body =>
               updatedProfile <- settle body ;;
               set (setProfile (Some updatedProfile)) ;;
               set (MeterDetails.setError None)
           end)
        (fun err => set (MeterDetails.setError (Some (message_of err))))
  end.

(** The Save button of the profile header, wired as the page wires it:
    [onUpdateInitialReading] is [handleUpdateInitialReading], and the
    component's own input state is not part of the page state. *)
Fixpoint perform (profile : option Profile.t) (profileId : string)
    (effects : list ProfileHeader.Effect) : Api.t MeterDetails.State unit :=
  match effects with
  | [] => Ret tt
  | ProfileHeader.onUpdateInitialReading n :: rest =>
      handleUpdateInitialReading profile profileId n ;;
      perform profile profileId rest
  | ProfileHeader.setInitialReadingInput _ :: rest => perform profile profileId rest
  end.

Definition save (profile : option Profile.t) (profileId : string)
    (initialReadingInput : string) : Api.t MeterDetails.State unit :=
  perform profile profileId (ProfileHeader.handleSaveInitialReading initialReadingInput).

(** The reading form as the page mounts it: the state is the page state with
    the form's values. *)
Definition Mounted : Type := (MeterDetails.State * AddReadingForm.FormValues)%type.

Definition on_page (f : MeterDetails.State -> MeterDetails.State) (m : Mounted)
  : Mounted := (f (fst m), snd m).

Definition reset (values : AddReadingForm.FormValues) (m : Mounted) : Mounted :=
  (fst m, values).

(** [handleAddReading], as the state change it makes. *)
Definition handleAddReading (newReading : Reading.t) (s : MeterDetails.State)
  : MeterDetails.State :=
  MeterDetails.setError None
    (MeterDetails.setReadings (fun prevReadings => (prevReadings ++ [newReading])%list) s).

Definition form_props (auth : MeterDetails.Auth) (profile : Profile.t)
  : ReadingForm.Props Mounted :=
  {| ReadingForm.profile := profile;
     ReadingForm.onAddReading := fun r => on_page (handleAddReading r);
     ReadingForm.setError := fun e => on_page (MeterDetails.setError e);
     ReadingForm.isSignedIn := default false (MeterDetails.isSignedIn auth);
     ReadingForm.userId := MeterDetails.userId auth |}.

End MeterPage.

(** ** AddProfile *)

Module AddProfile.
Import Async Api Zod.
Local Open Scope api_scope.

Record FormValues : Type := { tenant_name : string; meter_number : string }.

Definition formSchema_issues (data : FormValues) : list ZodIssue :=
  parse_key "tenant_name" [min 1 "Tenant name is required"] (tenant_name data)
  ++ parse_key "meter_number" [min 1 "Meter number is required"] (meter_number data).

Definition formSchema (data : FormValues) : SafeParseReturn FormValues :=
  match formSchema_issues data with
  | [] => Success data
  | issues => Failure issues
  end.

Record State : Type := { isLoading : bool; error : option string }.

Definition initial : State := {| isLoading := false; error := None |}.

Definition setIsLoading (b : bool) (s : State) : State :=
  {| isLoading := b; error := error s |}.

Definition setError (e : option string) (s : State) : State :=
  {| isLoading := isLoading s; error := e |}.

Definition onSubmit (auth : MeterDetails.Auth) (values : FormValues)
  : Api.t State unit :=
  if MeterDetails.signed_out auth then
    set (setError (Some "Please sign in to add a profile"))
  else
    set (setIsLoading true) ;;
    set (setError None) ;;
    finally
      (try_catch
         (token <- getToken ;;
          if no_token token then Throw (Error "Authentication token not found")
          else
            response <- fetch (default "" token)
                              (PostProfile (tenant_name values) (meter_number values)) ;;
            match response with
            | NotOk status errorData =>
                errorData <- settle errorData ;;
                message <- detail_or errorData "Failed to add profile" ;;
                Throw (Error message)
            | Ok _ => push "/dashboard"
            end)
         (fun err => set (setError (Some (message_of err)))))
      (set (setIsLoading false)).

(** [form.handleSubmit(onSubmit)] *)
Definition submit (auth : MeterDetails.Auth) (values : FormValues)
  : Api.t State unit :=
  match formSchema values with
  | Success data => onSubmit auth data
  | Failure _ => Ret tt
  end.

End AddProfile.
(** * Properties *)

(** ** Numbers *)

Section NumberFacts.
Import JS.

Lemma ge_negb_lt (x y : Number) :
  isNaN x = false -> isNaN y = false -> ge x y = negb (lt x y).
Proof.
  unfold ge, lt. destruct x, y; simpl; try discriminate; intros _ _;
    try reflexivity.
  destruct (z <? z0); reflexivity.
Qed.

End NumberFacts.

(** ** Reading validation *)

Section ReadingValidation.
Import JS Zod AddReadingForm.

Lemma parse_key_passes (key : string) (checks : list Check) (val : string) :
  Forall (fun chk => chk val = None) checks -> parse_key key checks val = [].
Proof.
  unfold parse_key. induction 1 as [|chk checks Hchk _ IH]; simpl.
  - reflexivity.
  - rewrite Hchk. simpl. exact IH.
Qed.

Lemma non_negative_not_NaN (val : string) :
  non_negative val = true -> isNaN (parseInt val) = false.
Proof.
  unfold non_negative. intros H. apply andb_prop in H as [H _].
  now apply negb_true_iff in H.
Qed.

Lemma non_negative_required (val : string) :
  non_negative val = true -> min 1 "required" val = None.
Proof.
  intros H. destruct val as [|c val]; [discriminate H | reflexivity].
Qed.

Lemma min_message_irrelevant (n : nat) (m m' val : string) :
  min n m val = None -> min n m' val = None.
Proof. unfold min. destruct (_ <? _)%nat; [discriminate | reflexivity]. Qed.

Lemma reading_checks_pass (m1 m2 val : string) :
  Forall (fun chk => chk val = None) [min 1 m1; refine non_negative m2]
  <-> non_negative val = true.
Proof.
  split.
  - intros H. apply Forall_cons_iff in H as [_ H].
    apply Forall_cons_iff in H as [H _].
    unfold refine in H. now destruct (non_negative val).
  - intros H. repeat constructor.
    + eapply min_message_irrelevant, non_negative_required, H.
    + unfold refine. now rewrite H.
Qed.

(** A field that parses to a non-negative integer raises no issue of its
    own. *)
Lemma previous_passes (val : string) :
  non_negative val = true -> parse_key "previous" previous_checks val = [].
Proof. intros H. now apply parse_key_passes, reading_checks_pass. Qed.

Lemma current_passes (val : string) :
  non_negative val = true -> parse_key "current" current_checks val = [].
Proof. intros H. now apply parse_key_passes, reading_checks_pass. Qed.

(** The issues of a date are on the path [date]. *)
Lemma date_issues (d : string) :
  parse_key "date" date_checks d
  = if date_regex d then []
    else [{| path := ["date"]; message := "Date must be YYYY-MM-DD" |}].
Proof. unfold parse_key, date_checks, regex. simpl. now destruct (date_regex d). Qed.

Lemma first_error_app (p : list string) (l1 l2 : list ZodIssue) :
  first_error p (l1 ++ l2)
  = match first_error p l1 with
    | Some m => Some m
    | None => first_error p l2
    end.
Proof.
  unfold first_error. induction l1 as [|i l1 IH]; simpl; [reflexivity|].
  destruct (bool_decide (path i = p)); simpl; [reflexivity | exact IH].
Qed.

Lemma first_error_other_key (name key : string) (checks : list Check) (val : string) :
  key <> name -> first_error [name] (parse_key key checks val) = None.
Proof.
  intros Hne. unfold first_error, parse_key.
  induction checks as [|chk checks IH]; simpl; [reflexivity|].
  destruct (chk val); simpl; [|exact IH].
  rewrite bool_decide_eq_false_2 by congruence. exact IH.
Qed.

Lemma first_error_same_key (key : string) (checks : list Check) (val : string) :
  first_error [key] (parse_key key checks val) = None
  <-> Forall (fun chk => chk val = None) checks.
Proof.
  unfold first_error, parse_key.
  induction checks as [|chk checks IH]; simpl.
  - split; [constructor | reflexivity].
  - destruct (chk val) eqn:E; simpl.
    + rewrite bool_decide_eq_true_2 by reflexivity. simpl.
      split; [discriminate|]. intros H. apply Forall_cons_iff in H as [H _].
      congruence.
    + rewrite IH. split; [now constructor|].
      intros H. now apply Forall_cons_iff in H as [_ H].
Qed.

(** The previous field is free of errors exactly when it parses to a
    non-negative integer; otherwise an error is shown under it. *)
Lemma previous_error_iff (d val c : string) :
  field_error "previous" {| date := d; previous := val; current := c |} = None
  <-> non_negative val = true.
Proof.
  unfold field_error, formSchema_issues. cbn [date previous current].
  rewrite !first_error_app.
  rewrite (first_error_other_key "previous" "date") by discriminate.
  rewrite (first_error_other_key "previous" "current") by discriminate.
  rewrite <- (reading_checks_pass "Previous reading is required"
                "Previous reading must be a positive integer").
  rewrite <- (first_error_same_key "previous").
  fold previous_checks.
  destruct (first_error ["previous"] (parse_key "previous" previous_checks val)).
  - split; discriminate.
  - split; [reflexivity|]. intros _. now destruct (current_ge_previous _).
Qed.

(** The current field is free of errors exactly when it parses to a
    non-negative integer and the cross-field rule holds. *)
Lemma current_error_iff (d p val : string) :
  field_error "current" {| date := d; previous := p; current := val |} = None
  <-> non_negative val = true /\ ge (parseInt val) (parseInt p) = true.
Proof.
  unfold field_error, formSchema_issues, current_ge_previous.
  cbn [date previous current].
  rewrite !first_error_app.
  rewrite (first_error_other_key "current" "date") by discriminate.
  rewrite (first_error_other_key "current" "previous") by discriminate.
  rewrite <- (reading_checks_pass "Current reading is required"
                "Current reading must be a positive integer").
  rewrite <- (first_error_same_key "current").
  fold current_checks.
  destruct (first_error ["current"] (parse_key "current" current_checks val)).
  - split; [discriminate | intros [H _]; discriminate H].
  - destruct (ge (parseInt val) (parseInt p)); simpl.
    + split; auto.
    + split; [discriminate | intros [_ H]; discriminate H].
Qed.

Lemma issues_of_valid_fields (d p c : string) :
  non_negative p = true -> non_negative c = true ->
  formSchema_issues {| date := d; previous := p; current := c |}
  = (parse_key "date" date_checks d
     ++ if ge (parseInt c) (parseInt p) then [] else [cross_field_issue])%list.
Proof.
  intros Hp Hc. unfold formSchema_issues, current_ge_previous.
  cbn [date previous current].
  now rewrite (previous_passes p Hp), (current_passes c Hc).
Qed.

(** C1.  For two fields that each parse to a non-negative integer (and a
    well-formed date), validation succeeds exactly when the parsed current
    reading is >= the parsed previous one.  When it is smaller, validation
    fails whatever the date: the cross-field issue is among the issues, on
    the path [current], so the form shows it under the current field, shows
    nothing under previous, and has no form-level error; with a well-formed
    date it is the only issue. *)
Theorem cross_field_rule (d p c : string) :
  non_negative p = true ->
  non_negative c = true ->
  let data := {| date := d; previous := p; current := c |} in
  (date_regex d = true ->
   (formSchema data = Success data <-> ge (parseInt c) (parseInt p) = true))
  /\ (ge (parseInt c) (parseInt p) = false <-> lt (parseInt c) (parseInt p) = true)
  /\ (lt (parseInt c) (parseInt p) = true ->
      (exists issues, formSchema data = Failure issues /\ In cross_field_issue issues)
      /\ path cross_field_issue = ["current"]
      /\ field_error "current" data = Some cross_field_message
      /\ field_error "previous" data = None
      /\ form_error data = None
      /\ (date_regex d = true -> formSchema data = Failure [cross_field_issue])).
Proof.
  intros Hp Hc data.
  pose proof (issues_of_valid_fields d p c Hp Hc) as Hissues.
  pose proof (ge_negb_lt _ _ (non_negative_not_NaN c Hc) (non_negative_not_NaN p Hp))
    as Hge.
  fold data in Hissues.
  unfold formSchema, field_error, form_error.
  rewrite Hissues, Hge, date_issues.
  destruct (lt (parseInt c) (parseInt p)); simpl.
  - split; [intros ->; split; discriminate|]. split; [tauto|]. intros _.
    destruct (date_regex d); simpl.
    + repeat split; try reflexivity. eexists; split; [reflexivity|]. now left.
    + repeat split; try reflexivity; try discriminate.
      eexists; split; [reflexivity|]. right. now left.
  - split; [intros ->; tauto|]. split; [split; discriminate|]. discriminate.
Qed.

Lemma cross_field_rule_witness :
  let data := {| date := "2025-01-01"; previous := "120"; current := "95" |} in
  non_negative "120" = true
  /\ non_negative "95" = true
  /\ lt (parseInt "95") (parseInt "120") = true
  /\ formSchema data = Failure [cross_field_issue]
  /\ field_error "current" data = Some cross_field_message.
Proof.
  pose proof (cross_field_rule "2025-01-01" "120" "95" eq_refl eq_refl)
    as (_ & _ & H).
  destruct (H eq_refl) as (_ & _ & H2 & _ & _ & H1).
  repeat split; solve [reflexivity | assumption | exact (H1 eq_refl)].
Defined.

(** C2 (behaviour of the code at a non-integer string).  The string "1.5" is
    not an integer, yet the current field accepts it: validation succeeds,
    no error is attached to the field, and the integer prefix 1 is what is
    submitted.  The same holds for "12abc", read as 12. *)
Theorem non_integer_string_accepted (profile : Profile.t) :
  let data := {| date := "2025-01-01"; previous := "0"; current := "1.5" |} in
  formSchema data = Success data
  /\ field_error "current" data = None
  /\ handleSubmit data = Some data
  /\ payload_current (payload profile data) = Finite 1
  /\ formSchema {| date := "2025-01-01"; previous := "12abc"; current := "20" |}
     = Success {| date := "2025-01-01"; previous := "12abc"; current := "20" |}
  /\ parseInt "12abc" = Finite 12.
Proof. repeat split; reflexivity. Qed.
End ReadingValidation.

(** ** Profile baseline *)

Section Baseline.
Import JS ProfileHeader Props.

Lemma truthy_false (s : string) : truthy s = false <-> s = "".
Proof. destruct s; simpl; split; congruence. Qed.

Lemma isNaN_true (n : Number) : isNaN n = true <-> n = NaN.
Proof. destruct n; simpl; split; congruence. Qed.

(** C9.  A candidate that is empty, does not parse to a number or parses to
    a negative number makes [handleSaveInitialReading] do nothing at all: no
    call to [onUpdateInitialReading], and the handler has no other effect
    (no error).  Every other candidate is passed on, parsed, in exactly one
    call, and its value is non-negative. *)
Theorem baseline_update_silent (input : string) :
  (turned_down input -> handleSaveInitialReading input = [])
  /\ (~ turned_down input ->
      handleSaveInitialReading input = [onUpdateInitialReading (parseInt input)]
      /\ ge (parseInt input) (Finite 0) = true).
Proof.
  unfold handleSaveInitialReading, turned_down. split.
  - intros [H | [H | H]].
    + subst. reflexivity.
    + rewrite H. simpl. now rewrite orb_true_r.
    + rewrite H. now rewrite orb_true_r.
  - intros H.
    destruct (truthy input) eqn:Ht; simpl.
    2: { exfalso. apply H. left. now apply truthy_false. }
    destruct (isNaN (parseInt input)) eqn:Hn; simpl.
    1: { exfalso. apply H. right. left. now apply isNaN_true. }
    destruct (lt (parseInt input) (Finite 0)) eqn:Hl.
    1: { exfalso. apply H. right. right. reflexivity. }
    split; [reflexivity|].
    rewrite ge_negb_lt by (reflexivity || assumption). now rewrite Hl.
Qed.
Lemma baseline_update_silent_witness :
  turned_down "-4"
  /\ handleSaveInitialReading "-4" = []
  /\ ~ turned_down "1200"
  /\ handleSaveInitialReading "1200" = [onUpdateInitialReading (Finite 1200)].
Proof.
  assert (Hneg : turned_down "-4") by (right; right; reflexivity).
  assert (Hpos : ~ turned_down "1200")
    by (intros [H | [H | H]]; discriminate H).
  split; [exact Hneg|].
  split; [exact (proj1 (baseline_update_silent "-4") Hneg)|].
  split; [exact Hpos|].
  exact (proj1 (proj2 (baseline_update_silent "1200") Hpos)).
Defined.
End Baseline.

(** ** Severity bands *)

Section Bands.
Import ReadingsTable.
Local Open Scope Q_scope.

Lemma Qle_bool_false (x y : Q) : Qle_bool x y = false <-> y < x.
Proof.
  rewrite <- not_true_iff_false, Qle_bool_iff. split; intros H; lra.
Qed.

Lemma band_class_inj (b b' : Band) : band_class b = band_class b' -> b = b'.
Proof. destruct b, b'; simpl; intros H; try reflexivity; discriminate H. Qed.

(** C5.  Every consumption value falls into exactly one of the four bands:
    highest from 200 on, high in [150, 200), medium in [100, 150), normal
    below 100. *)
Theorem four_severity_bands (c : Q) :
  exists b : Band,
    consumption_class c = band_class b
    /\ (forall b', consumption_class c = band_class b' -> b' = b)
    /\ (b = Highest <-> 200 <= c)
    /\ (b = High <-> 150 <= c < 200)
    /\ (b = Medium <-> 100 <= c < 150)
    /\ (b = Normal <-> c < 100).
Proof.
  unfold consumption_class.
  destruct (Qle_bool 200 c) eqn:H200;
    [|destruct (Qle_bool 150 c) eqn:H150;
      [|destruct (Qle_bool 100 c) eqn:H100]];
    rewrite ?Qle_bool_iff, ?Qle_bool_false in *.
  - exists Highest. split; [reflexivity|]. split.
    { intros b' E. symmetry. now apply band_class_inj. }
    repeat split; intros; try discriminate; try lra.
  - exists High. split; [reflexivity|]. split.
    { intros b' E. symmetry. now apply band_class_inj. }
    repeat split; intros; try discriminate; try lra.
  - exists Medium. split; [reflexivity|]. split.
    { intros b' E. symmetry. now apply band_class_inj. }
    repeat split; intros; try discriminate; try lra.
  - exists Normal. split; [reflexivity|]. split.
    { intros b' E. symmetry. now apply band_class_inj. }
    repeat split; intros; try discriminate; try lra.
Qed.

(** C4, as the claim has it, fails: 199 is not rendered in the medium band
    with 200 in the high band. *)
Lemma band_199_medium_200_high_fails :
  ~ (consumption_class 199 = band_class Medium
     /\ consumption_class 200 = band_class High).
Proof. intros [H _]. discriminate H. Qed.

(** C4, amended.  199 is rendered in the high band, which ends just below
    200, and 200 exactly in the highest band; the two are rendered
    differently. *)
Theorem band_boundary_at_200 :
  consumption_class 199 = band_class High
  /\ consumption_class 200 = band_class Highest
  /\ consumption_class 199 <> consumption_class 200.
Proof. repeat split. discriminate. Qed.
End Bands.

(** ** Dates and the comparator *)

Section DateFacts.
Import JS Props.

Lemma to_Number_exact (z : Z) : Z.abs z < 2 ^ 53 -> to_Number z = Finite z.
Proof.
  intros H. unfold to_Number, round_magnitude.
  apply Z.ltb_lt in H as Hb. rewrite Hb.
  assert (2 ^ 53 <= 2 ^ 1024) by (apply Z.pow_le_mono_r; lia).
  destruct (Z.leb_spec (2 ^ 1024) (Z.abs z)); [lia|].
  f_equal. rewrite Z.mul_comm. apply Z.abs_sgn.
Qed.

Lemma is_digit_range (c : ascii) :
  Date.is_digit c = true -> 0 <= Date.digit c <= 9.
Proof. unfold Date.is_digit, Date.digit. lia. Qed.

Lemma days_in_month_le (y m : Z) : Date.days_in_month y m <= 31.
Proof.
  unfold Date.days_in_month.
  repeat match goal with |- context [if ?b then _ else _] => destruct b end; lia.
Qed.

Lemma days_from_civil_bound (y m d : Z) :
  0 <= y <= 9999 -> 1 <= m <= 12 -> 1 <= d <= 31 ->
  Z.abs (Date.days_from_civil y m d) < 4000000.
Proof.
  intros Hy Hm Hd. unfold Date.days_from_civil.
  destruct (m <=? 2) eqn:Em, (2 <? m) eqn:Em'; Z.div_mod_to_equations; lia.
Qed.

(** A time value of a parsed date is far inside the exact integers. *)
Lemma parse_bound (s : string) (t : Z) :
  Date.parse s = Finite t -> Z.abs t < 2 ^ 50.
Proof.
  unfold Date.parse.
  destruct (list_ascii_of_string s)
    as [|y1 [|y2 [|y3 [|y4 [|h1 [|m1 [|m2 [|h2 [|d1 [|d2 [|? ?]]]]]]]]]]];
    try discriminate.
  destruct (forallb _ _ && _ && _) eqn:Hshape; [|discriminate].
  apply andb_prop in Hshape as [Hshape _].
  apply andb_prop in Hshape as [Hdigits _].
  simpl in Hdigits.
  repeat match type of Hdigits with
         | (_ && _)%bool = true => apply andb_prop in Hdigits as [?H Hdigits]
         end.
  repeat match goal with
         | H : Date.is_digit _ = true |- _ => apply is_digit_range in H
         end.
  match goal with
  | |- (if ?b then _ else _) = _ -> _ => destruct b eqn:Hrange; [|discriminate]
  end.
  intros [= <-].
  pose proof (days_in_month_le
                (1000 * Date.digit y1 + 100 * Date.digit y2
                 + 10 * Date.digit y3 + Date.digit y4)
                (10 * Date.digit m1 + Date.digit m2)).
  pose proof (days_from_civil_bound
                (1000 * Date.digit y1 + 100 * Date.digit y2
                 + 10 * Date.digit y3 + Date.digit y4)
                (10 * Date.digit m1 + Date.digit m2)
                (10 * Date.digit d1 + Date.digit d2)) as Hb.
  unfold Date.msPerDay.
  change (2 ^ 50) with 1125899906842624.
  lia.
Qed.

Lemma valid_date_time (r : Reading.t) :
  valid_date r ->
  exists t, Date.getTime (Reading.date r) = Finite t /\ Z.abs t < 2 ^ 50.
Proof.
  unfold valid_date, Date.getTime. intros H.
  destruct (Date.parse (Reading.date r)) as [|t| |] eqn:E; try discriminate.
  - exists t. split; [reflexivity|]. now apply parse_bound with (s := Reading.date r).
  - exfalso. revert E. unfold Date.parse.
    repeat match goal with
           | |- context [match ?x with _ => _ end] => destruct x
           end; discriminate.
  - exfalso. revert E. unfold Date.parse.
    repeat match goal with
           | |- context [match ?x with _ => _ end] => destruct x
           end; discriminate.
Qed.
End DateFacts.

(** ** The table's sort *)

Section SortFacts.
Import JS ReadingsTable Props.

Section AnyComparator.
Context {A : Type} (comparefn : A -> A -> Number).

Lemma insert_Permutation (x : A) (l : list A) :
  Permutation (insert comparefn x l) (x :: l).
Proof.
  induction l as [|y l IH]; simpl; [reflexivity|].
  destruct (placed_after comparefn x y); [|reflexivity].
  rewrite IH. apply perm_swap.
Qed.

(** Sorting only rearranges, whatever the comparator answers. *)
Lemma sorted_Permutation (l : list A) : Permutation (sorted comparefn l) l.
Proof.
  induction l as [|x l IH]; simpl; [reflexivity|].
  rewrite insert_Permutation. now constructor.
Qed.

Lemma insert_Forall (P : A -> Prop) (x : A) (l : list A) :
  P x -> Forall P l -> Forall P (insert comparefn x l).
Proof.
  intros Hx Hl. eapply Permutation_Forall.
  - symmetry. apply insert_Permutation.
  - now constructor.
Qed.

Lemma sorted_Forall (P : A -> Prop) (l : list A) :
  Forall P l -> Forall P (sorted comparefn l).
Proof.
  intros Hl. eapply Permutation_Forall; [|exact Hl].
  symmetry. apply sorted_Permutation.
Qed.
End AnyComparator.

(** On parseable dates the comparator places [x] after [y] exactly when [x]
    is the earlier one. *)
Lemma placed_after_earlier (x y : Reading.t) :
  valid_date x -> valid_date y ->
  placed_after by_date_desc x y
  = lt (Date.getTime (Reading.date x)) (Date.getTime (Reading.date y)).
Proof.
  intros Hx Hy.
  destruct (valid_date_time x Hx) as (tx & Ex & Bx).
  destruct (valid_date_time y Hy) as (ty & Ey & By).
  unfold placed_after, by_date_desc. rewrite Ex, Ey. simpl.
  rewrite to_Number_exact.
  - unfold lt. simpl.
    destruct (Z.ltb_spec 0 (ty - tx)), (Z.ltb_spec tx ty); (reflexivity || lia).
  - change (2 ^ 50) with 1125899906842624 in *.
    change (2 ^ 53) with 9007199254740992. lia.
Qed.

Lemma date_desc_trans (x y z : Reading.t) :
  valid_date y -> date_desc x y -> date_desc y z -> date_desc x z.
Proof.
  unfold valid_date, date_desc, lt.
  destruct (Date.getTime (Reading.date x)), (Date.getTime (Reading.date y)),
    (Date.getTime (Reading.date z)); simpl; try congruence.
  all: intros _; repeat match goal with
       | |- context [?a <? ?b] => destruct (Z.ltb_spec a b)
       end; (congruence || lia).
Qed.

Lemma date_desc_of_later (x y : Reading.t) :
  lt (Date.getTime (Reading.date x)) (Date.getTime (Reading.date y)) = true ->
  date_desc y x.
Proof.
  unfold date_desc, lt.
  destruct (Date.getTime (Reading.date x)), (Date.getTime (Reading.date y));
    simpl; try congruence.
  repeat match goal with
         | |- context [?a <? ?b] => destruct (Z.ltb_spec a b)
         end; (congruence || lia).
Qed.

Lemma insert_descending (x : Reading.t) (l : list Reading.t) :
  valid_date x -> Forall valid_date l ->
  descending l -> descending (insert by_date_desc x l).
Proof.
  unfold descending. intros Hx Hl Hs.
  induction l as [|y l IH]; simpl.
  - repeat constructor.
  - apply Forall_cons_iff in Hl as [Hy Hl].
    apply StronglySorted_inv in Hs as [Hs Hyl].
    rewrite placed_after_earlier by assumption.
    destruct (lt _ _) eqn:Hlt.
    + constructor; [now apply IH|].
      apply insert_Forall; [now apply date_desc_of_later | exact Hyl].
    + constructor; [now constructor|].
      constructor; [exact Hlt|].
      eapply Forall_impl; [exact Hyl|].
      intros z Hyz. now apply date_desc_trans with y.
Qed.

Lemma sorted_descending (l : list Reading.t) :
  Forall valid_date l -> descending (sorted by_date_desc l).
Proof.
  induction 1 as [|x l Hx Hl IH]; simpl.
  - constructor.
  - apply insert_descending; [exact Hx | now apply sorted_Forall | exact IH].
Qed.

(** What rendering does to the store and what it shows, for an array that
    is in the store. *)
Lemma ReadingsTable_eq (h : store) (readings : ref) (l : list Reading.t) :
  h !! readings = Some l ->
  ReadingsTable readings h
  = (<[readings := sorted by_date_desc l]> h,
     match l with
     | [] => NoReadings
     | _ => Table (map row (sorted by_date_desc l))
     end).
Proof.
  intros Hl. unfold ReadingsTable, Array_sort. rewrite Hl. simpl.
  destruct l as [|x l]; simpl.
  - f_equal. symmetry. now apply insert_id.
  - rewrite lookup_alter_eq, Hl. simpl. f_equal.
    apply map_eq. intros i. destruct (decide (i = readings)) as [->|Hne].
    + now rewrite lookup_alter_eq, lookup_insert_eq, Hl.
    + now rewrite lookup_alter_ne, lookup_insert_ne by congruence.
Qed.




(** C6 (behaviour of the code).  Rendering sorts the caller's own array:
    after rendering an array that listed January before March, the caller's
    reference holds March before January.  What rendering always preserves
    is the contents up to order, and every other array in the store. *)
Theorem render_reorders_callers_array :
  let l := [reading 1 "2025-01-01"; reading 2 "2025-03-01"] in
  let h : store := {[ 1%positive := l ]} in
  let h' := fst (ReadingsTable 1%positive h) in
  h !! 1%positive = Some [reading 1 "2025-01-01"; reading 2 "2025-03-01"]
  /\ h' !! 1%positive = Some [reading 2 "2025-03-01"; reading 1 "2025-01-01"]
  /\ h' !! 1%positive <> h !! 1%positive.
Proof. repeat split. discriminate. Qed.

Lemma render_frame (h : store) (readings other : ref) (l : list Reading.t) :
  h !! readings = Some l ->
  (exists l', fst (ReadingsTable readings h) !! readings = Some l'
              /\ Permutation l' l)
  /\ (other <> readings -> fst (ReadingsTable readings h) !! other = h !! other).
Proof.
  intros Hl. rewrite (ReadingsTable_eq h readings l Hl). simpl. split.
  - exists (sorted by_date_desc l). split; [apply lookup_insert_eq|].
    apply sorted_Permutation.
  - intros Hne. now apply lookup_insert_ne.
Qed.
End SortFacts.

(** ** Deleting, and fetching the profiles *)

Section Handlers.
Import JS Async Props HandlerProps.

Lemma filter_removed {A} (id_of : A -> Z) (id : Z) (l : list A) :
  removed id_of id l (List.filter (fun x => negb (id_of x =? id)) l).
Proof.
  split; [reflexivity|]. intros x. rewrite filter_In.
  rewrite negb_true_iff, Z.eqb_neq. reflexivity.
Qed.

(** Runs a handler whose world is known by hypotheses. *)
Ltac run_handler :=
  repeat (cbn;
          repeat match goal with
                 | H : token _ = _ |- _ => rewrite H
                 | H : respond _ _ = _ |- _ => rewrite H
                 | H : truthy _ = _ |- _ => rewrite H
                 | H : ok _ = _ |- _ => rewrite H
                 | H : json _ = _ |- _ => rewrite H
                 | H : MeterDetails.signed_out _ = _ |- _ => rewrite H
                 end).

Ltac by_body r :=
  destruct (json r) as [[| | | | |[detail|]]|]; run_handler;
  try destruct (truthy detail); run_handler.

Lemma delete_profile_confirmed (s : Dashboard.State) (w : World Profile.t)
    (profileId : Z) (tk : string) (r : Response Profile.t) :
  answers w tk (Dashboard.delete_profile profileId tk) r ->
  let o := run w (Dashboard.handleDeleteProfile profileId) s in
  (ok r = true ->
     removed Profile.id profileId (Dashboard.profiles s) (Dashboard.profiles (final o))
     /\ Dashboard.error (final o) = None)
  /\ (ok r = false ->
        Dashboard.profiles (final o) = Dashboard.profiles s
        /\ is_Some (Dashboard.error (final o)))
  /\ untouched_while_waiting Dashboard.profiles
       (Dashboard.delete_profile profileId tk) s (trace o).
Proof.
  intros (Htk & Ht & Hr) o. subst o. unfold Dashboard.handleDeleteProfile.
  split; [|split].
  - intros Hok. run_handler. split; [apply filter_removed | reflexivity].
  - intros Hok. run_handler. by_body r; split; eauto.
  - destruct (ok r) eqn:Hok; run_handler; [|by_body r];
      (split; [repeat constructor; cbn; intros ? [= <-]; reflexivity
              | reflexivity]).
Qed.

Lemma delete_reading_confirmed (s : MeterDetails.State) (w : World Reading.t)
    (auth : MeterDetails.Auth) (readingId : Z) (tk : string)
    (r : Response Reading.t) :
  MeterDetails.signed_out auth = false ->
  answers w tk (MeterDetails.delete_reading readingId tk) r ->
  let o := run w (MeterDetails.handleDeleteReading auth readingId) s in
  (ok r = true ->
     removed Reading.id readingId (MeterDetails.readings s)
             (MeterDetails.readings (final o))
     /\ MeterDetails.error (final o) = None)
  /\ (ok r = false ->
        MeterDetails.readings (final o) = MeterDetails.readings s
        /\ is_Some (MeterDetails.error (final o)))
  /\ untouched_while_waiting MeterDetails.readings
       (MeterDetails.delete_reading readingId tk) s (trace o).
Proof.
  intros Hauth (Htk & Ht & Hr) o. subst o.
  unfold MeterDetails.handleDeleteReading. rewrite Hauth.
  split; [|split].
  - intros Hok. run_handler. split; [apply filter_removed | reflexivity].
  - intros Hok. run_handler. by_body r; split; eauto.
  - destruct (ok r) eqn:Hok; run_handler; [|by_body r];
      (split; [repeat constructor; cbn; intros ? [= <-]; reflexivity
              | reflexivity]).
Qed.

(** The message shown after a failed DELETE: the backend's [detail] when the
    body has a non-empty one, else the generic text with the status. *)
Lemma delete_profile_error_message (s : Dashboard.State) (w : World Profile.t)
    (profileId : Z) (tk : string) (r : Response Profile.t) (detail : option string) :
  answers w tk (Dashboard.delete_profile profileId tk) r ->
  ok r = false ->
  json r = Fulfilled (JObject detail) ->
  Dashboard.error (final (run w (Dashboard.handleDeleteProfile profileId) s))
  = Some (match detail with
          | Some d => if truthy d then d
                      else String.append "Failed to delete profile: " (to_string (status r))
          | None => String.append "Failed to delete profile: " (to_string (status r))
          end).
Proof.
  intros (Htk & Ht & Hr) Hok Hjson. unfold Dashboard.handleDeleteProfile.
  run_handler. destruct detail as [d|]; run_handler; [destruct (truthy d)|];
    reflexivity.
Qed.

(** Without a token no request is sent; the list stays and an error is set. *)
Lemma delete_profile_without_token (s : Dashboard.State) (w : World Profile.t)
    (profileId : Z) :
  token w = Fulfilled None ->
  let o := run w (Dashboard.handleDeleteProfile profileId) s in
  Dashboard.profiles (final o) = Dashboard.profiles s
  /\ Dashboard.error (final o) = Some "Authentication token not found"
  /\ omap request_of (trace o) = [].
Proof.
  intros Htk o. subst o. unfold Dashboard.handleDeleteProfile. run_handler.
  repeat split.
Qed.

(** C7.  Deleting a profile on the dashboard, or a reading on the meter
    page, once the token is there and the backend has answered the DELETE
    request: on a successful response the list is the old one without the
    items of the given id, and no error is shown; on a failure response the
    list is unchanged and an error message is set; and in every state
    observed while the handler waits, the wait for the response included,
    the list is still the one it started with. *)
Theorem delete_waits_for_backend :
  (forall (s : Dashboard.State) (w : World Profile.t) (profileId : Z)
          (tk : string) (r : Response Profile.t),
      answers w tk (Dashboard.delete_profile profileId tk) r ->
      let o := run w (Dashboard.handleDeleteProfile profileId) s in
      (ok r = true ->
         removed Profile.id profileId (Dashboard.profiles s)
                 (Dashboard.profiles (final o))
         /\ Dashboard.error (final o) = None)
      /\ (ok r = false ->
            Dashboard.profiles (final o) = Dashboard.profiles s
            /\ is_Some (Dashboard.error (final o)))
      /\ untouched_while_waiting Dashboard.profiles
           (Dashboard.delete_profile profileId tk) s (trace o))
  /\ (forall (s : MeterDetails.State) (w : World Reading.t)
             (auth : MeterDetails.Auth) (readingId : Z) (tk : string)
             (r : Response Reading.t),
         MeterDetails.signed_out auth = false ->
         answers w tk (MeterDetails.delete_reading readingId tk) r ->
         let o := run w (MeterDetails.handleDeleteReading auth readingId) s in
         (ok r = true ->
            removed Reading.id readingId (MeterDetails.readings s)
                    (MeterDetails.readings (final o))
            /\ MeterDetails.error (final o) = None)
         /\ (ok r = false ->
               MeterDetails.readings (final o) = MeterDetails.readings s
               /\ is_Some (MeterDetails.error (final o)))
         /\ untouched_while_waiting MeterDetails.readings
              (MeterDetails.delete_reading readingId tk) s (trace o)).
Proof.
  split.
  - exact delete_profile_confirmed.
  - exact delete_reading_confirmed.
Qed.

Lemma delete_waits_for_backend_witness :
  let s := Dashboard.setProfiles (fun _ => [profile 1; profile 2; profile 3])
                                 Dashboard.initial in
  let r := {| status := 500; json := Fulfilled (JObject (Some "Profile is locked")) |} in
  let w : World Profile.t := backend 500 (Fulfilled (JObject (Some "Profile is locked"))) in
  let o := run w (Dashboard.handleDeleteProfile 2) s in
  answers w "token" (Dashboard.delete_profile 2 "token") r
  /\ ok r = false
  /\ Dashboard.profiles (final o) = [profile 1; profile 2; profile 3]
  /\ is_Some (Dashboard.error (final o)).
Proof.
  intros s r w o.
  assert (Hw : answers w "token" (Dashboard.delete_profile 2 "token") r)
    by (repeat split).
  split; [exact Hw|]. split; [reflexivity|].
  exact (proj1 (proj2 (proj1 delete_waits_for_backend s w 2 "token" r Hw)) eq_refl).
Defined.

(** C8.  When the profile fetch is answered with a non-success response, a
    status of 401 sets the session-expired message and every other status
    sets the generic fetch-failure message; the two messages differ, and
    the profile list is left as it was. *)
Theorem fetch_failure_message (s : Dashboard.State) (w : World Profile.t)
    (tk : string) (r : Response Profile.t) :
  answers w tk (Dashboard.get_profiles tk) r ->
  ok r = false ->
  let s' := final (run w (Dashboard.fetchProfiles (Some true)) s) in
  (status r = 401 -> Dashboard.error s' = Some Dashboard.session_expired)
  /\ (status r <> 401 -> Dashboard.error s' = Some Dashboard.fetch_failed)
  /\ Dashboard.session_expired <> Dashboard.fetch_failed
  /\ Dashboard.profiles s' = Dashboard.profiles s.
Proof.
  intros (Htk & Ht & Hr) Hok s'. subst s'. unfold Dashboard.fetchProfiles.
  run_handler. repeat split.
  - intros ->. reflexivity.
  - intros Hne. apply Z.eqb_neq in Hne. now rewrite Hne.
  - discriminate.
Qed.

Lemma fetch_failure_message_witness :
  let r : Response Profile.t := {| status := 401; json := Rejected (Error "no body") |} in
  let w : World Profile.t := backend 401 (Rejected (Error "no body")) in
  answers w "token" (Dashboard.get_profiles "token") r
  /\ ok r = false
  /\ Dashboard.error (final (run w (Dashboard.fetchProfiles (Some true)) Dashboard.initial))
     = Some Dashboard.session_expired.
Proof.
  intros r w.
  assert (Hw : answers w "token" (Dashboard.get_profiles "token") r)
    by (repeat split).
  split; [exact Hw|]. split; [reflexivity|].
  exact (proj1 (fetch_failure_message Dashboard.initial w "token" r Hw eq_refl) eq_refl).
Defined.

(** C10.  When the profile fetch succeeds and the parsed body is not an
    array, the profiles state becomes the empty list, no error is set and
    the handler completes normally: the state holds a list of profiles
    whatever the body was. *)
Theorem non_array_body_gives_empty_list (s : Dashboard.State)
    (w : World Profile.t) (tk : string) (r : Response Profile.t)
    (data : Json Profile.t) :
  answers w tk (Dashboard.get_profiles tk) r ->
  ok r = true ->
  json r = Fulfilled data ->
  isArray data = false ->
  let o := run w (Dashboard.fetchProfiles (Some true)) s in
  Dashboard.profiles (final o) = []
  /\ Dashboard.error (final o) = None
  /\ Dashboard.isLoading (final o) = false
  /\ result o = inr tt.
Proof.
  intros (Htk & Ht & Hr) Hok Hjson Harr o. subst o.
  unfold Dashboard.fetchProfiles. run_handler.
  destruct data; try discriminate Harr; repeat split.
Qed.
Lemma non_array_body_gives_empty_list_witness :
  let s := Dashboard.setProfiles (fun _ => [profile 1]) Dashboard.initial in
  let r : Response Profile.t := {| status := 200; json := Fulfilled (JObject None) |} in
  let w : World Profile.t := backend 200 (Fulfilled (JObject None)) in
  answers w "token" (Dashboard.get_profiles "token") r
  /\ ok r = true
  /\ isArray (JObject None : Json Profile.t) = false
  /\ Dashboard.profiles (final (run w (Dashboard.fetchProfiles (Some true)) s)) = [].
Proof.
  intros s r w.
  assert (Hw : answers w "token" (Dashboard.get_profiles "token") r)
    by (repeat split).
  split; [exact Hw|]. split; [reflexivity|]. split; [reflexivity|].
  exact (proj1 (non_array_body_gives_empty_list s w "token" r (JObject None)
                  Hw eq_refl eq_refl eq_refl)).
Defined.
End Handlers.

(** * Further properties *)

(** ** What the reading form lets through *)

Section FormFacts.
Import JS Zod AddReadingForm.

Lemma issues_nil_inv (data : FormValues) :
  formSchema_issues data = [] ->
  parse_key "date" date_checks (date data) = []
  /\ parse_key "previous" previous_checks (previous data) = []
  /\ parse_key "current" current_checks (current data) = []
  /\ current_ge_previous data = true.
Proof.
  unfold formSchema_issues. intros H.
  apply app_eq_nil in H as [Hd H]. apply app_eq_nil in H as [Hp H].
  apply app_eq_nil in H as [Hc H].
  repeat split; try assumption.
  destruct (current_ge_previous data); [reflexivity | discriminate H].
Qed.

Lemma parse_key_nil_inv (key : string) (checks : list Check) (val : string) :
  parse_key key checks val = [] -> Forall (fun chk => chk val = None) checks.
Proof.
  unfold parse_key. induction checks as [|chk checks IH]; simpl.
  - constructor.
  - destruct (chk val) eqn:E; simpl; [discriminate|]. intros H.
    constructor; [exact E | exact (IH H)].
Qed.

Lemma formSchema_Success_iff (data : FormValues) :
  (exists data', formSchema data = Success data') <-> formSchema_issues data = [].
Proof.
  unfold formSchema. destruct (formSchema_issues data).
  - split; eauto.
  - split; [intros [? [=]] | discriminate].
Qed.

Lemma handleSubmit_inv (values data : FormValues) :
  handleSubmit values = Some data ->
  data = values
  /\ date_regex (date data) = true
  /\ isNaN (parseInt (previous data)) = false
  /\ isNaN (parseInt (current data)) = false
  /\ ge (parseInt (previous data)) (Finite 0) = true
  /\ ge (parseInt (current data)) (parseInt (previous data)) = true
  /\ ge (parseInt (current data)) (Finite 0) = true.
Proof.
  unfold handleSubmit, formSchema.
  destruct (formSchema_issues values) eqn:Hissues; [|discriminate].
  intros [= <-]. split; [reflexivity|].
  apply issues_nil_inv in Hissues as (Hd & Hp & Hc & Hcross).
  rewrite date_issues in Hd.
  apply parse_key_nil_inv, reading_checks_pass in Hp.
  apply parse_key_nil_inv, reading_checks_pass in Hc.
  split; [now destruct (date_regex (date values))|].
  pose proof (non_negative_not_NaN _ Hp). pose proof (non_negative_not_NaN _ Hc).
  unfold non_negative in Hp, Hc.
  apply andb_prop in Hp as [_ Hp]. apply andb_prop in Hc as [_ Hc].
  repeat split; assumption.
Qed.

(** X1.  Whatever passes validation is a well-formed reading: [onSubmit] is
    called with the values as typed, the date has the shape YYYY-MM-DD, both
    readings parse to Numbers that are not NaN, the previous one is >= 0 and
    the current one is >= the previous one (so >= 0 as well). *)
Theorem submitted_values_are_well_formed (values data : FormValues) :
  handleSubmit values = Some data ->
  data = values
  /\ date_regex (date data) = true
  /\ isNaN (parseInt (previous data)) = false
  /\ isNaN (parseInt (current data)) = false
  /\ ge (parseInt (previous data)) (Finite 0) = true
  /\ ge (parseInt (current data)) (parseInt (previous data)) = true
  /\ ge (parseInt (current data)) (Finite 0) = true.
Proof. apply handleSubmit_inv. Qed.

Lemma submitted_values_are_well_formed_witness :
  let values := {| date := "2025-06-30"; previous := "1200"; current := "1350" |} in
  handleSubmit values = Some values
  /\ ge (parseInt "1350") (parseInt "1200") = true.
Proof.
  intros values.
  assert (H : handleSubmit values = Some values) by reflexivity.
  split; [exact H|].
  exact (proj1 (proj2 (proj2 (proj2 (proj2 (proj2
           (submitted_values_are_well_formed values values H))))))).
Defined.

(** X2.  An empty reading field is reported as required, and a non-empty one
    that does not parse to a non-negative integer is reported as not being a
    positive integer; for the current field this message takes precedence
    over the cross-field one. *)
Theorem field_messages (d p c : string) :
  let data := {| date := d; previous := p; current := c |} in
  (p = "" -> field_error "previous" data = Some "Previous reading is required")
  /\ (p <> "" -> non_negative p = false ->
      field_error "previous" data = Some "Previous reading must be a positive integer")
  /\ (c = "" -> field_error "current" data = Some "Current reading is required")
  /\ (c <> "" -> non_negative c = false ->
      field_error "current" data = Some "Current reading must be a positive integer").
Proof.
  intros data. subst data.
  unfold field_error, formSchema_issues. cbn [date previous current].
  repeat split.
  - intros ->. rewrite first_error_app.
    now rewrite (first_error_other_key "previous" "date") by discriminate.
  - intros Hne Hp. rewrite first_error_app.
    rewrite (first_error_other_key "previous" "date") by discriminate.
    destruct p; [congruence|].
    unfold parse_key, previous_checks, refine, first_error. simpl. now rewrite Hp.
  - intros ->. rewrite !first_error_app.
    rewrite (first_error_other_key "current" "date") by discriminate.
    now rewrite (first_error_other_key "current" "previous") by discriminate.
  - intros Hne Hc. rewrite !first_error_app.
    rewrite (first_error_other_key "current" "date") by discriminate.
    rewrite (first_error_other_key "current" "previous") by discriminate.
    destruct c; [congruence|].
    unfold parse_key, current_checks, refine, first_error. simpl. now rewrite Hc.
Qed.

Lemma field_messages_witness :
  "-3" <> "" /\ non_negative "-3" = false
  /\ field_error "current" {| date := "2025-06-30"; previous := "10"; current := "-3" |}
     = Some "Current reading must be a positive integer".
Proof.
  assert (Hne : "-3" <> "") by discriminate.
  split; [exact Hne|]. split; [reflexivity|].
  exact (proj2 (proj2 (proj2 (field_messages "2025-06-30" "10" "-3"))) Hne eq_refl).
Defined.

(** X3.  A previous reading that does not parse at all (left empty, for
    one) is never smaller than or equal to anything: a current reading that
    is fine by itself is then blamed with the cross-field message. *)
Theorem unparseable_previous_blames_current (d p c : string) :
  isNaN (parseInt p) = true ->
  non_negative c = true ->
  let data := {| date := d; previous := p; current := c |} in
  field_error "current" data = Some cross_field_message
  /\ is_Some (field_error "previous" data).
Proof.
  intros Hp Hc data. subst data. split.
  - unfold field_error, formSchema_issues, current_ge_previous.
    cbn [date previous current].
    rewrite !first_error_app.
    rewrite (first_error_other_key "current" "date") by discriminate.
    rewrite (first_error_other_key "current" "previous") by discriminate.
    rewrite (current_passes c Hc). simpl.
    destruct (parseInt p); try discriminate Hp.
    unfold ge. destruct (parseInt c); reflexivity.
  - destruct (field_error "previous" _) eqn:E; [eauto|].
    apply previous_error_iff, non_negative_not_NaN in E. congruence.
Qed.

Lemma unparseable_previous_blames_current_witness :
  isNaN (parseInt "") = true /\ non_negative "40" = true
  /\ field_error "current" {| date := "2025-06-30"; previous := ""; current := "40" |}
     = Some cross_field_message.
Proof.
  split; [reflexivity|]. split; [reflexivity|].
  exact (proj1 (unparseable_previous_blames_current "2025-06-30" "" "40" eq_refl eq_refl)).
Defined.

Lemma parse_key_paths (key : string) (checks : list Check) (val : string) :
  Forall (fun i => path i = [key]) (parse_key key checks val).
Proof.
  unfold parse_key. induction checks as [|chk checks IH]; simpl; [constructor|].
  destruct (chk val); simpl; [constructor; [reflexivity | exact IH] | exact IH].
Qed.

(** X4.  The schema never raises a form-level issue: every issue, on any
    input, is attached to one of the three fields, so the form has no error
    that is not shown under a field. *)
Theorem every_issue_has_a_field (data : FormValues) :
  Forall (fun i => path i = ["date"] \/ path i = ["previous"] \/ path i = ["current"])
         (formSchema_issues data)
  /\ form_error data = None.
Proof.
  assert (H : Forall (fun i => path i = ["date"] \/ path i = ["previous"]
                               \/ path i = ["current"])
                     (formSchema_issues data)).
  { unfold formSchema_issues. repeat apply Forall_app_2.
    - eapply Forall_impl; [apply parse_key_paths|]. simpl. auto.
    - eapply Forall_impl; [apply parse_key_paths|]. simpl. auto.
    - eapply Forall_impl; [apply parse_key_paths|]. simpl. auto.
    - destruct (current_ge_previous data); [constructor|].
      constructor; [right; right; reflexivity | constructor]. }
  split; [exact H|].
  unfold form_error, first_error.
  induction H as [|i l Hi _ IH]; simpl; [reflexivity|].
  rewrite bool_decide_eq_false_2; [exact IH|].
  intros E. rewrite E in Hi. destruct Hi as [Hi | [Hi | Hi]]; discriminate Hi.
Qed.
End FormFacts.

(** ** Numbers as text and back *)

Section RoundTrip.
Import JS.

(** One step of [digits_prefix] on the text of a decimal numeral. *)
Ltac digit_step :=
  cbn [NilEmpty.string_of_uint digits_prefix Pos.of_uint_acc Pos.of_uint];
  lazymatch goal with
  | |- context [digit_of 10 ?c] =>
      let v := eval vm_compute in (digit_of 10 c) in
      change (digit_of 10 c) with v
  end;
  cbn [default from_option id].

Lemma digits_acc (d : Decimal.uint) (p : positive) :
  digits_prefix 10 (NilEmpty.string_of_uint d) (Some (Z.pos p))
  = Some (Z.pos (Pos.of_uint_acc d p)).
Proof.
  revert p. induction d; intros p; [reflexivity|..]; digit_step;
    match goal with
    | |- digits_prefix _ _ (Some ?a) = Some (Z.pos (Pos.of_uint_acc _ ?q)) =>
        replace a with (Z.pos q) by lia; apply IHd
    end.
Qed.

Lemma digits_zero (d : Decimal.uint) :
  digits_prefix 10 (NilEmpty.string_of_uint d) (Some 0)
  = Some (Z.of_N (Pos.of_uint d)).
Proof.
  induction d; [reflexivity|..]; digit_step;
    solve [exact IHd | apply digits_acc].
Qed.

Lemma digits_of_uint (d : Decimal.uint) :
  d <> Decimal.Nil ->
  digits_prefix 10 (NilEmpty.string_of_uint d) None = Some (Z.of_N (Pos.of_uint d)).
Proof.
  destruct d; intros H; try congruence; digit_step;
    solve [apply digits_zero | apply digits_acc].
Qed.

Lemma uint_text_is_plain (d : Decimal.uint) :
  d <> Decimal.Nil ->
  trim_start (NilEmpty.string_of_uint d) = NilEmpty.string_of_uint d
  /\ strip_sign (NilEmpty.string_of_uint d) = (1, NilEmpty.string_of_uint d)
  /\ strip_hex_prefix (NilEmpty.string_of_uint d) = (10, NilEmpty.string_of_uint d).
Proof.
  destruct d as [|d|d|d|d|d|d|d|d|d|d]; intros H; try congruence;
    repeat split; try reflexivity.
  destruct d; reflexivity.
Qed.

Lemma parseInt_uint (d : Decimal.uint) :
  d <> Decimal.Nil ->
  parseInt (NilEmpty.string_of_uint d) = to_Number (Z.of_N (Pos.of_uint d))
  /\ parseInt (String "-" (NilEmpty.string_of_uint d))
     = to_Number (- Z.of_N (Pos.of_uint d)).
Proof.
  intros H. destruct (uint_text_is_plain d H) as (Ht & Hs & Hx). split.
  - unfold parseInt. rewrite Ht, Hs, Hx, (digits_of_uint d H).
    now rewrite Z.mul_1_l.
  - unfold parseInt. cbn [trim_start]. change (is_white_space "-") with false.
    cbn [strip_sign]. rewrite Hx, (digits_of_uint d H).
    f_equal; lia.
Qed.

Lemma parseInt_of_text (n : Z) :
  Z.abs n < 2 ^ 53 -> parseInt (Async.to_string n) = Finite n.
Proof.
  intros Hn. unfold Async.to_string.
  destruct n as [|p|p]; [reflexivity| |].
  - cbn [Z.to_int NilZero.string_of_int]. unfold NilZero.string_of_uint.
    pose proof (DecimalPos.Unsigned.to_uint_nonnil p) as Hnil.
    destruct (Pos.to_uint p) eqn:E; try congruence;
      rewrite <- E in *;
      rewrite (proj1 (parseInt_uint _ Hnil)), DecimalPos.Unsigned.of_to;
      now apply to_Number_exact.
  - cbn [Z.to_int NilZero.string_of_int]. unfold NilZero.string_of_uint.
    pose proof (DecimalPos.Unsigned.to_uint_nonnil p) as Hnil.
    destruct (Pos.to_uint p) eqn:E; try congruence;
      rewrite <- E in *;
      rewrite (proj2 (parseInt_uint _ Hnil)), DecimalPos.Unsigned.of_to;
      now apply to_Number_exact.
Qed.

(** X5.  Writing an integer out and reading it back with [parseInt] gives the
    integer again, for every integer a Number holds exactly. *)
Theorem parseInt_to_string (n : Z) :
  Z.abs n < 2 ^ 53 -> parseInt (Async.to_string n) = Finite n.
Proof. apply parseInt_of_text. Qed.

Lemma parseInt_to_string_witness :
  Z.abs 120450 < 2 ^ 53 /\ parseInt (Async.to_string 120450) = Finite 120450.
Proof.
  assert (H : Z.abs 120450 < 2 ^ 53) by reflexivity.
  split; [exact H | exact (parseInt_to_string 120450 H)].
Defined.
End RoundTrip.

(** ** Seeded inputs *)

Section SeedFacts.
Import JS AddReadingForm ProfileHeader Seed.






End SeedFacts.

(** ** More on the table's sort *)

Section MoreSortFacts.
Import JS ReadingsTable Props MoreProps.

Lemma insert_head {A} (comparefn : A -> A -> Number) (x : A) (l : list A) :
  match l with
  | [] => True
  | y :: _ => placed_after comparefn x y = false
  end ->
  insert comparefn x l = x :: l.
Proof. destruct l as [|y l]; simpl; [reflexivity|]. now intros ->. Qed.

Lemma filter_insert_out {A} (comparefn : A -> A -> Number) (P : A -> bool)
    (x : A) (l : list A) :
  P x = false -> List.filter P (insert comparefn x l) = List.filter P l.
Proof.
  intros Hx. induction l as [|y l IH]; simpl.
  - now rewrite Hx.
  - destruct (placed_after comparefn x y); simpl.
    + now rewrite IH.
    + now rewrite Hx.
Qed.

Lemma has_time_valid (t : Z) (r : Reading.t) : has_time t r = true -> valid_date r.
Proof.
  unfold has_time, valid_date. now destruct (Date.getTime (Reading.date r)).
Qed.

Lemma earlier_has_other_time (t : Z) (x y : Reading.t) :
  has_time t x = true ->
  lt (Date.getTime (Reading.date x)) (Date.getTime (Reading.date y)) = true ->
  has_time t y = false.
Proof.
  unfold has_time, lt.
  destruct (Date.getTime (Reading.date x)), (Date.getTime (Reading.date y));
    simpl; try discriminate; try reflexivity.
  intros Hx Hy. apply Z.eqb_eq in Hx. subst.
  destruct (Z.ltb_spec t z0); [|discriminate]. apply Z.eqb_neq. lia.
Qed.

Lemma filter_insert_same_time (t : Z) (x : Reading.t) (l : list Reading.t) :
  Forall valid_date l -> has_time t x = true ->
  List.filter (has_time t) (insert by_date_desc x l)
  = x :: List.filter (has_time t) l.
Proof.
  intros Hl Hx. induction Hl as [|y l Hy Hl IH]; simpl.
  - now rewrite Hx.
  - rewrite placed_after_earlier by (assumption || now apply has_time_valid with t).
    destruct (lt _ _) eqn:Hlt; simpl.
    + rewrite (earlier_has_other_time t x y Hx Hlt). exact IH.
    + now rewrite Hx.
Qed.

(** X8.  The sort is stable: among readings with parseable dates, those that
    fall on the same day are rendered in the order in which they were in the
    list. *)
Theorem same_day_readings_keep_their_order (l : list Reading.t) (t : Z) :
  Forall valid_date l ->
  List.filter (has_time t) (map cells (rows_for l)) = List.filter (has_time t) l.
Proof.
  intros Hl. unfold rows_for.
  rewrite (ReadingsTable_eq _ 1%positive l) by apply lookup_insert_eq.
  cbn [snd].
  assert (rows_of (match l with
                   | [] => NoReadings
                   | _ => Table (map row (sorted by_date_desc l))
                   end) = map row (sorted by_date_desc l)) as ->
      by (destruct l; reflexivity).
  rewrite map_map. cbn [cells row]. rewrite map_id.
  induction Hl as [|x l Hx Hl IH]; [reflexivity|].
  cbn [sorted fold_right]. fold (sorted by_date_desc l).
  destruct (has_time t x) eqn:Ht.
  - rewrite filter_insert_same_time by (try assumption; now apply sorted_Forall).
    simpl. now rewrite Ht, IH.
  - rewrite filter_insert_out by assumption. simpl. now rewrite Ht.
Qed.

Lemma same_day_readings_keep_their_order_witness :
  let l := [reading 1 "2025-02-01"; reading 2 "2025-03-01"; reading 3 "2025-02-01"] in
  Forall valid_date l
  /\ List.filter (has_time 1738368000000) (map cells (rows_for l))
     = [reading 1 "2025-02-01"; reading 3 "2025-02-01"].
Proof.
  intros l.
  assert (Hv : Forall valid_date l) by (repeat constructor).
  split; [exact Hv|].
  exact (same_day_readings_keep_their_order l 1738368000000 Hv).
Defined.

Lemma sorted_fixpoint (l : list Reading.t) :
  Forall valid_date l -> descending l -> sorted by_date_desc l = l.
Proof.
  intros Hv Hd. induction Hd as [|x l Hd IH Hx]; [reflexivity|].
  apply Forall_cons_iff in Hv as [Hvx Hv].
  cbn [sorted fold_right]. fold (sorted by_date_desc l). rewrite (IH Hv).
  apply insert_head. destruct l as [|y l]; [exact I|].
  apply Forall_cons_iff in Hx as [Hxy _]. apply Forall_cons_iff in Hv as [Hvy _].
  now rewrite placed_after_earlier.
Qed.

(** X9.  Rendering again changes nothing: for readings with parseable dates,
    a second rendering finds the array already in order, leaves the store as
    the first rendering left it and shows the same rows. *)
Theorem rendering_twice_is_rendering_once (h : store) (readings : ref)
    (l : list Reading.t) :
  h !! readings = Some l ->
  Forall valid_date l ->
  ReadingsTable readings (fst (ReadingsTable readings h))
  = ReadingsTable readings h.
Proof.
  intros Hl Hv.
  rewrite (ReadingsTable_eq h readings l Hl). cbn [fst].
  rewrite (ReadingsTable_eq _ readings (sorted by_date_desc l))
    by apply lookup_insert_eq.
  rewrite sorted_fixpoint
    by (try apply sorted_Forall; try apply sorted_descending; assumption).
  rewrite insert_insert_eq. f_equal.
  destruct l as [|x l]; [reflexivity|].
  pose proof (sorted_Permutation by_date_desc (x :: l)) as Hp.
  destruct (sorted by_date_desc (x :: l)); [|reflexivity].
  apply Permutation_nil in Hp. discriminate Hp.
Qed.

Lemma rendering_twice_is_rendering_once_witness :
  let l := [reading 1 "2025-01-01"; reading 2 "2025-03-01"] in
  let h : store := {[ 1%positive := l ]} in
  h !! 1%positive = Some l
  /\ Forall valid_date l
  /\ ReadingsTable 1%positive (fst (ReadingsTable 1%positive h))
     = ReadingsTable 1%positive h.
Proof.
  intros l h.
  assert (Hl : h !! 1%positive = Some l) by reflexivity.
  assert (Hv : Forall valid_date l) by (repeat constructor).
  split; [exact Hl|]. split; [exact Hv|].
  exact (rendering_twice_is_rendering_once h 1%positive l Hl Hv).
Defined.

(** X10.  Whatever the dates are, rendering shows every reading of the array
    exactly once (the rows are a rearrangement of the array), leaves the
    array holding the readings in the order shown, and touches no other
    array of the store. *)
Theorem rendering_keeps_every_reading (h : store) (readings other : ref)
    (l : list Reading.t) :
  h !! readings = Some l ->
  let h' := fst (ReadingsTable readings h) in
  let shown := map cells (rows_of (snd (ReadingsTable readings h))) in
  Permutation shown l
  /\ length (rows_of (snd (ReadingsTable readings h))) = length l
  /\ h' !! readings = Some shown
  /\ (other <> readings -> h' !! other = h !! other).
Proof.
  intros Hl h' shown. subst h' shown.
  rewrite (ReadingsTable_eq h readings l Hl). cbn [fst snd].
  assert (rows_of (match l with
                   | [] => NoReadings
                   | _ => Table (map row (sorted by_date_desc l))
                   end) = map row (sorted by_date_desc l)) as ->
      by (destruct l; reflexivity).
  rewrite map_map. cbn [cells row]. rewrite map_id, length_map.
  repeat split.
  - apply sorted_Permutation.
  - apply Permutation_length, sorted_Permutation.
  - apply lookup_insert_eq.
  - intros Hne. now apply lookup_insert_ne.
Qed.

Lemma rendering_keeps_every_reading_witness :
  let l := [reading 1 "2025-01-01"; reading 2 "not a date"; reading 3 "2025-03-01"] in
  let h : store := {[ 1%positive := l ]} in
  h !! 1%positive = Some l
  /\ Permutation (map cells (rows_of (snd (ReadingsTable 1%positive h)))) l.
Proof.
  intros l h.
  assert (Hl : h !! 1%positive = Some l) by reflexivity.
  split; [exact Hl|].
  exact (proj1 (rendering_keeps_every_reading h 1%positive 2%positive l Hl)).
Defined.
End MoreSortFacts.

(** ** Deleting and adding, seen through the table *)

Section TableAndHandlers.
Import JS Async ReadingsTable Props HandlerProps MoreProps.

Lemma Forall_filter_keep {A} (Q : A -> Prop) (P : A -> bool) (l : list A) :
  Forall Q l -> Forall Q (List.filter P l).
Proof.
  induction 1 as [|x l Hx _ IH]; simpl; [constructor|].
  destruct (P x); [now constructor | exact IH].
Qed.

Lemma filter_insert_in (P : Reading.t -> bool) (x : Reading.t) (s : list Reading.t) :
  valid_date x -> Forall valid_date s -> descending s -> P x = true ->
  List.filter P (insert by_date_desc x s) = insert by_date_desc x (List.filter P s).
Proof.
  intros Hx Hv Hd Hpx. induction Hd as [|y s Hd IH Hy]; simpl.
  - now rewrite Hpx.
  - apply Forall_cons_iff in Hv as [Hvy Hv].
    destruct (placed_after by_date_desc x y) eqn:Hxy; simpl.
    + destruct (P y); simpl; rewrite ?Hxy; now rewrite IH.
    + rewrite Hpx. symmetry. apply insert_head.
      rewrite placed_after_earlier in Hxy by assumption.
      assert (Hall : Forall (date_desc x) (y :: s)).
      { constructor; [exact Hxy|].
        eapply Forall_impl; [exact Hy|]. intros z Hz.
        now apply date_desc_trans with y. }
      assert (Hvalid : Forall valid_date (y :: s)) by now constructor.
      pose proof (Forall_filter_keep _ P _ Hall) as Hall'.
      pose proof (Forall_filter_keep _ P _ Hvalid) as Hvalid'.
      simpl in Hall', Hvalid'.
      destruct (if P y then y :: List.filter P s else List.filter P s)
        as [|z rest]; [exact I|].
      apply Forall_cons_iff in Hall' as [Hz _].
      apply Forall_cons_iff in Hvalid' as [Hvz _].
      now rewrite placed_after_earlier.
Qed.

Lemma sorted_cons {A} (comparefn : A -> A -> Number) (x : A) (l : list A) :
  sorted comparefn (x :: l) = insert comparefn x (sorted comparefn l).
Proof. reflexivity. Qed.

(** Sorting and filtering commute on parseable dates. *)
Lemma sorted_filter (P : Reading.t -> bool) (l : list Reading.t) :
  Forall valid_date l ->
  sorted by_date_desc (List.filter P l) = List.filter P (sorted by_date_desc l).
Proof.
  induction 1 as [|x l Hx Hl IH]; [reflexivity|].
  cbn [List.filter]. rewrite (sorted_cons _ x l).
  destruct (P x) eqn:Hpx.
  - rewrite sorted_cons, IH. symmetry.
    apply filter_insert_in;
      [assumption | now apply sorted_Forall | now apply sorted_descending | assumption].
  - rewrite IH. symmetry. now apply filter_insert_out.
Qed.

Lemma rows_for_eq (l : list Reading.t) : rows_for l = map row (sorted by_date_desc l).
Proof.
  unfold rows_for.
  rewrite (ReadingsTable_eq _ 1%positive l) by apply lookup_insert_eq.
  cbn [snd]. destruct l; reflexivity.
Qed.

(** X11.  Pressing Delete on a row, once the backend has confirmed: the
    table then shows the rows it showed before without the rows of that
    reading, the others unchanged and in the same order (for readings with
    parseable dates). *)
Theorem confirmed_delete_removes_the_row (s : MeterDetails.State)
    (w : World Reading.t) (auth : MeterDetails.Auth) (clicked : Row) (tk : string)
    (r : Response Reading.t) :
  Forall valid_date (MeterDetails.readings s) ->
  In clicked (rows_for (MeterDetails.readings s)) ->
  MeterDetails.signed_out auth = false ->
  answers w tk (MeterDetails.delete_reading (delete_id clicked) tk) r ->
  ok r = true ->
  let s' := final (run w (MeterDetails.handleDeleteReading auth (delete_id clicked)) s) in
  rows_for (MeterDetails.readings s')
  = List.filter (fun shown => negb (key shown =? key clicked))
                (rows_for (MeterDetails.readings s))
  /\ ~ In clicked (rows_for (MeterDetails.readings s')).
Proof.
  intros Hv Hin Hauth Hw Hok s'.
  destruct (delete_reading_confirmed s w auth (delete_id clicked) tk r Hauth Hw)
    as (Hdel & _ & _).
  destruct (Hdel Hok) as ((Heq & _) & _). fold s' in Heq.
  assert (Hkey : delete_id clicked = key clicked).
  { rewrite rows_for_eq in Hin. apply in_map_iff in Hin as (x & <- & _). reflexivity. }
  assert (Hrows : rows_for (MeterDetails.readings s')
                  = List.filter (fun shown => negb (key shown =? key clicked))
                                (rows_for (MeterDetails.readings s))).
  { rewrite !rows_for_eq, Heq, sorted_filter by assumption.
    rewrite Hkey. generalize (sorted by_date_desc (MeterDetails.readings s)).
    intros l. induction l as [|x l IH]; simpl; [reflexivity|].
    destruct (negb (Reading.id x =? key clicked)); simpl; now rewrite IH. }
  split; [exact Hrows|].
  rewrite Hrows. intros Hc. apply filter_In in Hc as [_ Hc].
  now rewrite Z.eqb_refl in Hc.
Qed.

Lemma confirmed_delete_removes_the_row_witness :
  let s := MeterDetails.setReadings
             (fun _ => [reading 1 "2025-01-01"; reading 2 "2025-03-01"])
             MeterDetails.initial in
  let auth := {| MeterDetails.isSignedIn := Some true;
                 MeterDetails.userId := Some "user_1" |} in
  let w : World Reading.t := backend 204 (Rejected (Error "no body")) in
  let r : Response Reading.t := {| status := 204; json := Rejected (Error "no body") |} in
  let clicked := row (reading 2 "2025-03-01") in
  Forall valid_date (MeterDetails.readings s)
  /\ In clicked (rows_for (MeterDetails.readings s))
  /\ rows_for (MeterDetails.readings
                 (final (run w (MeterDetails.handleDeleteReading auth 2) s)))
     = [row (reading 1 "2025-01-01")].
Proof.
  intros s auth w r clicked.
  assert (Hv : Forall valid_date (MeterDetails.readings s)) by (repeat constructor).
  assert (Hin : In clicked (rows_for (MeterDetails.readings s))) by (left; reflexivity).
  assert (Hw : answers w "token" (MeterDetails.delete_reading (delete_id clicked) "token") r)
    by (repeat split).
  split; [exact Hv|]. split; [exact Hin|].
  exact (proj1 (confirmed_delete_removes_the_row s w auth clicked "token" r
                  Hv Hin eq_refl Hw eq_refl)).
Defined.

Lemma filter_fresh (i : Z) (l : list Reading.t) :
  Forall (fun old => Reading.id old <> i) l ->
  List.filter (fun reading => negb (Reading.id reading =? i)) l = l.
Proof.
  induction 1 as [|x l Hx _ IH]; simpl; [reflexivity|].
  apply Z.eqb_neq in Hx. rewrite Hx. simpl. now rewrite IH.
Qed.

(** X12.  Adding a reading appends it to the list and clears the error
    without any request; deleting it again, once confirmed, gives back the
    list as it was, provided no other reading has its id. *)
Theorem add_then_delete_restores_the_list (s : MeterDetails.State)
    (w : World Reading.t) (auth : MeterDetails.Auth) (newReading : Reading.t)
    (tk : string) (r : Response Reading.t) :
  Forall (fun old => Reading.id old <> Reading.id newReading) (MeterDetails.readings s) ->
  MeterDetails.signed_out auth = false ->
  answers w tk (MeterDetails.delete_reading (Reading.id newReading) tk) r ->
  ok r = true ->
  let added := run w (MeterDetails.handleAddReading newReading) s in
  let deleted := run w (MeterDetails.handleDeleteReading auth (Reading.id newReading))
                     (final added) in
  MeterDetails.readings (final added) = (MeterDetails.readings s ++ [newReading])%list
  /\ MeterDetails.error (final added) = None
  /\ trace added = []
  /\ MeterDetails.readings (final deleted) = MeterDetails.readings s.
Proof.
  intros Hfresh Hauth Hw Hok added deleted.
  assert (Hadd : MeterDetails.readings (final added)
                 = (MeterDetails.readings s ++ [newReading])%list) by reflexivity.
  repeat split; try reflexivity.
  destruct (delete_reading_confirmed (final added) w auth (Reading.id newReading)
              tk r Hauth Hw) as (Hdel & _ & _).
  destruct (Hdel Hok) as ((Heq & _) & _). fold deleted in Heq.
  rewrite Heq, Hadd. rewrite List.filter_app. simpl.
  rewrite Z.eqb_refl. simpl. rewrite app_nil_r.
  now apply filter_fresh.
Qed.

Lemma add_then_delete_restores_the_list_witness :
  let s := MeterDetails.setReadings (fun _ => [reading 1 "2025-01-01"])
                                    MeterDetails.initial in
  let auth := {| MeterDetails.isSignedIn := Some true;
                 MeterDetails.userId := Some "user_1" |} in
  let w : World Reading.t := backend 204 (Rejected (Error "no body")) in
  let r : Response Reading.t := {| status := 204; json := Rejected (Error "no body") |} in
  Forall (fun old => Reading.id old <> 2) (MeterDetails.readings s)
  /\ MeterDetails.readings
       (final (run w (MeterDetails.handleDeleteReading auth 2)
                   (final (run w (MeterDetails.handleAddReading (reading 2 "2025-03-01")) s))))
     = [reading 1 "2025-01-01"].
Proof.
  intros s auth w r.
  assert (Hf : Forall (fun old => Reading.id old <> Reading.id (reading 2 "2025-03-01"))
                      (MeterDetails.readings s))
    by (repeat constructor; discriminate).
  assert (Hw : answers w "token" (MeterDetails.delete_reading 2 "token") r)
    by (repeat split).
  split; [exact Hf|].
  exact (proj2 (proj2 (proj2
           (add_then_delete_restores_the_list s w auth (reading 2 "2025-03-01")
              "token" r Hf eq_refl Hw eq_refl)))).
Defined.
End TableAndHandlers.

(** ** The handlers in every world *)

Section EveryWorld.
Import JS Async Props HandlerProps.

(** Splits a run on whatever the world answers next. *)
Ltac next_answer :=
  match goal with
  | |- context [match token ?w with _ => _ end] => destruct (token w) as [[?tk|]|?e] eqn:?
  | |- context [settle (token ?w)] => destruct (token w) as [[?tk|]|?e] eqn:?
  | |- context [match respond ?w ?req with _ => _ end] =>
      destruct (respond w req) as [?r|?e] eqn:?
  | |- context [settle (respond ?w ?req)] => destruct (respond w req) as [?r|?e] eqn:?
  | |- context [truthy ?tk] => destruct (truthy tk) eqn:?
  | |- context [ok ?r] => destruct (ok r) eqn:?
  | |- context [settle (json ?r)] => destruct (json r) as [[| | | | |[?detail|]]|?e] eqn:?
  | |- context [match json ?r with _ => _ end] =>
      destruct (json r) as [[| | | | |[?detail|]]|?e] eqn:?
  | |- context [status ?r =? 401] => destruct (status r =? 401) eqn:?
  end.

Ltac every_world := repeat (cbn; try next_answer).

(** X13.  No exception escapes the dashboard's handlers, and whatever the
    identity provider and the backend do, they end with the loading flag
    off; the profile fetch also marks the authentication as checked. *)
Theorem dashboard_handlers_always_settle (w : World Profile.t) (s : Dashboard.State)
    (signedIn : bool) (profileId : Z) :
  let fetched := run w (Dashboard.fetchProfiles (Some signedIn)) s in
  let deleted := run w (Dashboard.handleDeleteProfile profileId) s in
  (result fetched = inr tt
   /\ Dashboard.isLoading (final fetched) = false
   /\ Dashboard.authChecked (final fetched) = true)
  /\ (result deleted = inr tt
      /\ Dashboard.isLoading (final deleted) = false
      /\ Dashboard.authChecked (final deleted) = Dashboard.authChecked s).
Proof.
  intros fetched deleted. subst fetched deleted. split.
  - unfold Dashboard.fetchProfiles. destruct signedIn; every_world; repeat split.
  - unfold Dashboard.handleDeleteProfile. every_world; repeat split.
Qed.

(** X14.  Deleting a reading never lets an exception escape either, and it
    touches nothing but the reading list and the error: the loading flag, the
    profile and the authentication mark stay as they were, in every world. *)
Theorem delete_reading_frame (w : World Reading.t) (s : MeterDetails.State)
    (auth : MeterDetails.Auth) (readingId : Z) :
  let o := run w (MeterDetails.handleDeleteReading auth readingId) s in
  result o = inr tt
  /\ MeterDetails.isLoading (final o) = MeterDetails.isLoading s
  /\ MeterDetails.profile (final o) = MeterDetails.profile s
  /\ MeterDetails.authChecked (final o) = MeterDetails.authChecked s.
Proof.
  intros o. subst o. unfold MeterDetails.handleDeleteReading.
  destruct (MeterDetails.signed_out auth); every_world; repeat split.
Qed.

(** X15.  Each handler sends at most one request, and only with a token in
    hand: either nothing is sent, or the identity provider gave a non-empty
    token and the one request sent is the handler's own (GET profiles,
    DELETE of the given profile or reading) bearing that token. *)
Theorem at_most_one_request (profileId readingId : Z) (signedIn : bool)
    (auth : MeterDetails.Auth) :
  (forall (w : World Profile.t) (s : Dashboard.State),
      let sent := omap request_of (trace (run w (Dashboard.fetchProfiles (Some signedIn)) s)) in
      sent = []
      \/ exists tk, token w = Fulfilled (Some tk) /\ truthy tk = true
                    /\ signedIn = true /\ sent = [Dashboard.get_profiles tk])
  /\ (forall (w : World Profile.t) (s : Dashboard.State),
         let sent := omap request_of (trace (run w (Dashboard.handleDeleteProfile profileId) s)) in
         sent = []
         \/ exists tk, token w = Fulfilled (Some tk) /\ truthy tk = true
                       /\ sent = [Dashboard.delete_profile profileId tk])
  /\ (forall (w : World Reading.t) (s : MeterDetails.State),
         let sent := omap request_of
                       (trace (run w (MeterDetails.handleDeleteReading auth readingId) s)) in
         sent = []
         \/ exists tk, token w = Fulfilled (Some tk) /\ truthy tk = true
                       /\ MeterDetails.signed_out auth = false
                       /\ sent = [MeterDetails.delete_reading readingId tk]).
Proof.
  repeat split.
  - intros w s sent. subst sent. unfold Dashboard.fetchProfiles.
    destruct signedIn; every_world; eauto 8.
  - intros w s sent. subst sent. unfold Dashboard.handleDeleteProfile.
    every_world; eauto 8.
  - intros w s sent. subst sent. unfold MeterDetails.handleDeleteReading.
    destruct (MeterDetails.signed_out auth) eqn:Hauth; every_world; eauto 8.
Qed.

Lemma filter_keeps_others (profileId : Z) (l : list Profile.t) (p : Profile.t) :
  In p l -> Profile.id p <> profileId ->
  In p (List.filter (fun profile => negb (Profile.id profile =? profileId)) l).
Proof.
  intros Hin Hne. apply filter_In. split; [exact Hin|].
  apply negb_true_iff, Z.eqb_neq, Hne.
Qed.

(** X16.  In every world, deleting a profile ends without an error exactly
    when the backend confirmed the deletion (a token was there and the
    response to the DELETE request was successful); and whatever happens, a
    profile with another id is still in the list afterwards. *)
Theorem delete_profile_outcome (w : World Profile.t) (s : Dashboard.State)
    (profileId : Z) :
  let s' := final (run w (Dashboard.handleDeleteProfile profileId) s) in
  (Dashboard.error s' = None
   <-> exists tk r, token w = Fulfilled (Some tk) /\ truthy tk = true
                    /\ respond w (Dashboard.delete_profile profileId tk) = Fulfilled r
                    /\ ok r = true)
  /\ (forall p, In p (Dashboard.profiles s) -> Profile.id p <> profileId ->
                In p (Dashboard.profiles s')).
Proof.
  intros s'. subst s'. unfold Dashboard.handleDeleteProfile. split.
  - every_world;
      (split;
       [ first [ discriminate | intros _; eauto 8 ]
       | first [ reflexivity
               | intros (tk' & r' & Ht & Htr & Hr & Hok);
                 repeat match goal with
                        | H : Fulfilled _ = Fulfilled _ |- _ => injection H as H; subst
                        | H : Some _ = Some _ |- _ => injection H as H; subst
                        | H1 : respond ?w ?q = _, H2 : respond ?w ?q = _ |- _ =>
                            rewrite H1 in H2
                        end;
                 congruence ] ]).
  - intros p Hin Hne. every_world; try exact Hin.
    all: now apply filter_keeps_others.
Qed.
End EveryWorld.

(** ** The dashboard, from fetch to screen *)

Section DashboardScreen.
Import JS Async Props HandlerProps DashboardView.

Ltac next_answer :=
  match goal with
  | |- context [match token ?w with _ => _ end] => destruct (token w) as [[?tk|]|?e] eqn:?
  | |- context [settle (token ?w)] => destruct (token w) as [[?tk|]|?e] eqn:?
  | |- context [match respond ?w ?req with _ => _ end] =>
      destruct (respond w req) as [?r|?e] eqn:?
  | |- context [settle (respond ?w ?req)] => destruct (respond w req) as [?r|?e] eqn:?
  | |- context [truthy ?tk] => destruct (truthy tk) eqn:?
  | |- context [ok ?r] => destruct (ok r) eqn:?
  | |- context [settle (json ?r)] => destruct (json r) as [[| | | | |[?detail|]]|?e] eqn:?
  | |- context [match json ?r with _ => _ end] =>
      destruct (json r) as [[| | | | |[?detail|]]|?e] eqn:?
  | |- context [status ?r =? 401] => destruct (status r =? 401) eqn:?
  end.

Ltac every_world := repeat (cbn; try next_answer).

(** X17.  The three states of authentication.  While the identity provider
    has not resolved, the fetch effect does nothing at all.  Signed out, it
    sets the sign-in error, turns loading off and navigates to /sign-in,
    without asking for a token or sending a request, and keeps the list.
    Signed in, it never navigates. *)
Theorem fetch_follows_the_auth_state (w : World Profile.t) (s : Dashboard.State) :
  run w (Dashboard.fetchProfiles None) s
  = {| trace := []; final := s; result := inr tt |}
  /\ (let o := run w (Dashboard.fetchProfiles (Some false)) s in
      trace o = [Navigates "/sign-in"]
      /\ Dashboard.error (final o) = Some "Please sign in to view your dashboard"
      /\ Dashboard.isLoading (final o) = false
      /\ Dashboard.profiles (final o) = Dashboard.profiles s)
  /\ Forall (fun ev => forall href, ev <> Navigates href)
            (trace (run w (Dashboard.fetchProfiles (Some true)) s)).
Proof.
  split; [reflexivity|]. split; [repeat split|].
  unfold Dashboard.fetchProfiles. every_world; repeat constructor; discriminate.
Qed.

(** X18.  In every world, the profile fetch either succeeds, and then the
    list is replaced by the array of the body (by the empty list when the
    body is no array) and the error is cleared, or it fails, and then the
    list shown before is kept and an error is set. *)
Theorem fetch_replaces_or_keeps (w : World Profile.t) (s : Dashboard.State) :
  let s' := final (run w (Dashboard.fetchProfiles (Some true)) s) in
  (exists tk r data,
      answers w tk (Dashboard.get_profiles tk) r /\ ok r = true
      /\ json r = Fulfilled data
      /\ Dashboard.profiles s' = match data with JArray elements => elements | _ => [] end
      /\ Dashboard.error s' = None)
  \/ (Dashboard.profiles s' = Dashboard.profiles s
      /\ is_Some (Dashboard.error s')).
Proof.
  intros s'. subst s'. unfold Dashboard.fetchProfiles.
  every_world; try (right; split; [reflexivity | eauto]; fail).
  all: left; do 3 eexists; unfold answers;
    repeat split; try eassumption; reflexivity.
Qed.

Lemma includes_Session_expired : Str.includes "Session" Dashboard.session_expired = true.
Proof. reflexivity. Qed.

Lemma includes_Session_failed : Str.includes "Session" Dashboard.fetch_failed = false.
Proof. reflexivity. Qed.

(** X19.  From the fetch to the screen, for a signed-in user whose token is
    there: a response with a 401 status is shown as the session-expired
    banner with the link to sign in again; any other unsuccessful response is
    shown as the fetch-failure banner without the link; in both cases neither
    the spinner nor the profile list is shown.  A successful response shows
    the list of the profiles received, with no banner and no spinner. *)
Theorem fetch_outcome_on_screen (w : World Profile.t) (s : Dashboard.State)
    (tk : string) (r : Response Profile.t) :
  answers w tk (Dashboard.get_profiles tk) r ->
  let screen := render (Some true) (final (run w (Dashboard.fetchProfiles (Some true)) s)) in
  (ok r = false -> status r = 401 ->
   screen = Page false (Some {| text := Dashboard.session_expired;
                                sign_in_again := true |}) None)
  /\ (ok r = false -> status r <> 401 ->
      screen = Page false (Some {| text := Dashboard.fetch_failed;
                                   sign_in_again := false |}) None)
  /\ (forall elements, ok r = true -> json r = Fulfilled (JArray elements) ->
      screen = Page false None (Some (ProfileList.ProfileList elements))).
Proof.
  intros (Htk & Ht & Hr) screen. subst screen. unfold Dashboard.fetchProfiles.
  repeat split.
  - intros Hok Hst. cbn. rewrite Htk. cbn. rewrite Ht. cbn. rewrite Hr. cbn.
    rewrite Hok. cbn. rewrite Hst. reflexivity.
  - intros Hok Hst. cbn. rewrite Htk. cbn. rewrite Ht. cbn. rewrite Hr. cbn.
    rewrite Hok. cbn. apply Z.eqb_neq in Hst. rewrite Hst. reflexivity.
  - intros elements Hok Hjson. cbn. rewrite Htk. cbn. rewrite Ht. cbn. rewrite Hr.
    cbn. rewrite Hok. cbn. rewrite Hjson. reflexivity.
Qed.

Lemma fetch_outcome_on_screen_witness :
  let r : Response Profile.t := {| status := 500; json := Rejected (Error "no body") |} in
  let w : World Profile.t := backend 500 (Rejected (Error "no body")) in
  answers w "token" (Dashboard.get_profiles "token") r
  /\ render (Some true) (final (run w (Dashboard.fetchProfiles (Some true)) Dashboard.initial))
     = Page false (Some {| text := Dashboard.fetch_failed; sign_in_again := false |}) None.
Proof.
  intros r w.
  assert (Hw : answers w "token" (Dashboard.get_profiles "token") r) by (repeat split).
  split; [exact Hw|].
  assert (Hst : status r <> 401) by discriminate.
  exact (proj1 (proj2 (fetch_outcome_on_screen w Dashboard.initial "token" r Hw))
               eq_refl Hst).
Defined.

(** X20.  What is on screen, whatever the state: until the authentication has
    been checked only the checking notice is shown, and a user who is not
    signed in only sees the sign-in prompt; the profile list is shown only to
    a signed-in user, and never together with the spinner or with an error
    banner; the banner offers the link to sign in again exactly when its text
    contains "Session". *)
Theorem what_the_dashboard_shows (isSignedIn : option bool) (s : Dashboard.State) :
  (Dashboard.authChecked s = false -> render isSignedIn s = CheckingAuthentication)
  /\ (Dashboard.authChecked s = true -> isSignedIn <> Some true ->
      render isSignedIn s = PleaseSignIn)
  /\ (forall spinner alert list,
         render isSignedIn s = Page spinner alert (Some list) ->
         isSignedIn = Some true /\ spinner = false /\ alert = None
         /\ list = ProfileList.ProfileList (Dashboard.profiles s))
  /\ (forall spinner a list,
         render isSignedIn s = Page spinner (Some a) list ->
         Dashboard.error s = Some (text a)
         /\ sign_in_again a = Str.includes "Session" (text a)).
Proof.
  unfold render. repeat split.
  - now intros ->.
  - intros -> Hs. destruct isSignedIn as [[]|]; simpl; congruence.
  - destruct (Dashboard.authChecked s), isSignedIn as [[]|]; simpl in *;
      try discriminate; reflexivity.
  - destruct (Dashboard.authChecked s), isSignedIn as [[]|]; simpl in *;
      try discriminate.
    destruct (Dashboard.isLoading s); simpl in *; [discriminate|].
    destruct (has_error (Dashboard.error s)); simpl in *; [discriminate|].
    now injection H as <- _ _.
  - destruct (Dashboard.authChecked s), isSignedIn as [[]|]; simpl in *;
      try discriminate.
    destruct (Dashboard.isLoading s); simpl in *; [discriminate|].
    unfold banner in H.
    destruct (has_error (Dashboard.error s)); simpl in *; [discriminate|].
    now injection H as _ <- _.
  - destruct (Dashboard.authChecked s), isSignedIn as [[]|]; simpl in *;
      try discriminate.
    destruct (Dashboard.isLoading s); simpl in *; [discriminate|].
    destruct (has_error (Dashboard.error s)); simpl in *; [discriminate|].
    now injection H as _ _ <-.
  - destruct (Dashboard.authChecked s), isSignedIn as [[]|]; simpl in *;
      try discriminate.
    unfold banner, has_error in H.
    destruct (Dashboard.error s) as [e|]; simpl in *; [|discriminate].
    destruct (truthy e); [|discriminate]. now injection H as _ <- _.
  - destruct (Dashboard.authChecked s), isSignedIn as [[]|]; simpl in *;
      try discriminate.
    unfold banner in H.
    destruct (has_error (Dashboard.error s)); [|discriminate].
    now injection H as _ <- _.
Qed.
End DashboardScreen.

(** ** The profile grid *)

Section Grid.
Import JS Async Props HandlerProps ProfileList MoreProps.

Lemma cards_for_eq (l : list Profile.t) : cards_for l = map ProfileCard l.
Proof. unfold cards_for, ProfileList.ProfileList. destruct l; reflexivity. Qed.

(** X21.  The grid has one card per profile, in the order of the list, and
    the empty-state invitation exactly when there is no profile.  Pressing
    Delete on a card, once the backend has confirmed, leaves the grid with
    the cards it had before without the cards of that profile, the others
    unchanged and in place. *)
Theorem confirmed_delete_removes_the_card (s : Dashboard.State)
    (w : World Profile.t) (clicked : Card) (tk : string) (r : Response Profile.t) :
  In clicked (cards_for (Dashboard.profiles s)) ->
  answers w tk (Dashboard.delete_profile (delete_id clicked) tk) r ->
  ok r = true ->
  let s' := final (run w (Dashboard.handleDeleteProfile (delete_id clicked)) s) in
  map key (cards_for (Dashboard.profiles s)) = map Profile.id (Dashboard.profiles s)
  /\ (ProfileList.ProfileList (Dashboard.profiles s') = NoMeters
      <-> Dashboard.profiles s' = [])
  /\ cards_for (Dashboard.profiles s')
     = List.filter (fun shown => negb (key shown =? key clicked))
                   (cards_for (Dashboard.profiles s))
  /\ ~ In clicked (cards_for (Dashboard.profiles s')).
Proof.
  intros Hin Hw Hok s'.
  destruct (delete_profile_confirmed s w (delete_id clicked) tk r Hw) as (Hdel & _ & _).
  destruct (Hdel Hok) as ((Heq & _) & _). fold s' in Heq.
  assert (Hkey : delete_id clicked = key clicked).
  { rewrite cards_for_eq in Hin. apply in_map_iff in Hin as (x & <- & _). reflexivity. }
  assert (Hcards : cards_for (Dashboard.profiles s')
                   = List.filter (fun shown => negb (key shown =? key clicked))
                                 (cards_for (Dashboard.profiles s))).
  { rewrite !cards_for_eq, Heq, Hkey. generalize (Dashboard.profiles s).
    intros l. induction l as [|x l IH]; simpl; [reflexivity|].
    destruct (negb (Profile.id x =? key clicked)); simpl; now rewrite IH. }
  split; [|split; [|split]].
  - rewrite cards_for_eq, map_map. reflexivity.
  - unfold ProfileList.ProfileList.
    destruct (Dashboard.profiles s'); simpl; split; congruence.
  - exact Hcards.
  - rewrite Hcards. intros Hc. apply filter_In in Hc as [_ Hc].
    now rewrite Z.eqb_refl in Hc.
Qed.

Lemma confirmed_delete_removes_the_card_witness :
  let s := Dashboard.setProfiles (fun _ => [profile 1; profile 2]) Dashboard.initial in
  let w : World Profile.t := backend 204 (Rejected (Error "no body")) in
  let r : Response Profile.t := {| status := 204; json := Rejected (Error "no body") |} in
  let clicked := ProfileCard (profile 2) in
  In clicked (cards_for (Dashboard.profiles s))
  /\ cards_for (Dashboard.profiles (final (run w (Dashboard.handleDeleteProfile 2) s)))
     = [ProfileCard (profile 1)].
Proof.
  intros s w r clicked.
  assert (Hin : In clicked (cards_for (Dashboard.profiles s)))
    by (right; left; reflexivity).
  assert (Hw : answers w "token" (Dashboard.delete_profile (delete_id clicked) "token") r)
    by (repeat split).
  split; [exact Hin|].
  exact (proj1 (proj2 (proj2
           (confirmed_delete_removes_the_card s w clicked "token" r Hin Hw eq_refl)))).
Defined.
End Grid.

(** ** Capitalising names *)

Section Capitalise.
Import JS Str ProfileList MoreProps.

Lemma split_space_cons (s : string) : exists w ws, split_space s = w :: ws.
Proof.
  induction s as [|c s (w & ws & IH)]; simpl; [eauto|].
  destruct (Ascii.eqb c " "); [eauto|]. rewrite IH. eauto.
Qed.

Lemma append_cons (a : ascii) (s t : string) :
  String.append (String a s) t = String a (String.append s t).
Proof. reflexivity. Qed.

Lemma append_nil_r (s : string) : String.append s EmptyString = s.
Proof. induction s as [|a s IH]; [reflexivity|]. now rewrite append_cons, IH. Qed.

Lemma append_assoc (a b c : string) :
  String.append (String.append a b) c = String.append a (String.append b c).
Proof. induction a as [|x a IH]; [reflexivity|]. now rewrite !append_cons, IH. Qed.

Lemma join_space_cons_append (a b : string) (ws : list string) :
  join_space (String.append a b :: ws) = String.append a (join_space (b :: ws)).
Proof. destruct ws; simpl; [reflexivity|]. apply append_assoc. Qed.

Lemma capitalized_words (s : string) (start : bool) :
  match split_space s with
  | w :: ws =>
      join_space ((if start then cap_word w else toLowerCase w) :: map cap_word ws)
  | [] => EmptyString
  end = capitalized start s.
Proof.
  revert start. induction s as [|c s IH]; intros start.
  - destruct start; reflexivity.
  - cbn [split_space capitalized].
    destruct (split_space_cons s) as (w & ws & E).
    pose proof (IH true) as IHt. pose proof (IH false) as IHf.
    rewrite E in IHt, IHf |- *.
    destruct (Ascii.eqb c " ").
    + cbn [map]. rewrite <- IHt. destruct start; reflexivity.
    + rewrite <- IHf. destruct start.
      * unfold cap_word at 1. cbn [charAt0 slice1 toUpperCase].
        rewrite append_nil_r. apply join_space_cons_append.
      * cbn [toLowerCase].
        apply (join_space_cons_append (String (lower_unit c) EmptyString)).
Qed.

(** The helper does what the letter-by-letter reading says, on every
    string. *)
Lemma capitalizeFirstLetter_capitalized (s : string) :
  capitalizeFirstLetter s = capitalized true s.
Proof.
  unfold capitalizeFirstLetter. destruct s as [|c s]; [reflexivity|].
  cbn [truthy negb]. rewrite <- capitalized_words.
  destruct (split_space (String c s)); reflexivity.
Qed.

(** Facts about single code units, checked on all 256 of them. *)
Ltac all_units c :=
  destruct c as [[] [] [] [] [] [] [] []]; vm_compute; repeat split;
  try reflexivity; try (intros H; discriminate H).

Lemma upper_unit_plain (c : ascii) :
  plain_unit c = true ->
  exists u, upper_unit c = String u EmptyString
            /\ plain_unit u = true
            /\ upper_unit u = String u EmptyString
            /\ lower_unit u = lower_unit c
            /\ (Ascii.eqb u " " = false \/ Ascii.eqb c " " = true).
Proof.
  intros H.
  exists (match upper_unit c with String u _ => u | EmptyString => c end).
  revert H. destruct c as [[] [] [] [] [] [] [] []]; vm_compute; intros H;
    try discriminate H; repeat split;
    solve [left; reflexivity | right; reflexivity].
Qed.

Lemma lower_unit_facts (c : ascii) :
  lower_unit (lower_unit c) = lower_unit c
  /\ (plain_unit c = true -> plain_unit (lower_unit c) = true)
  /\ (plain_unit c = true -> upper_unit (lower_unit c) = upper_unit c)
  /\ Ascii.eqb (lower_unit c) " " = Ascii.eqb c " ".
Proof. all_units c. Qed.

Lemma append_nil_l (s : string) : String.append EmptyString s = s.
Proof. reflexivity. Qed.

Lemma capitalized_space (start : bool) (s : string) :
  capitalized start (String " " s) = String " " (capitalized true s).
Proof. reflexivity. Qed.

(** A letter that is not a space becomes one letter, again not a space, that
    the same step leaves alone. *)
Lemma capitalized_letter (start : bool) (c : ascii) :
  Ascii.eqb c " " = false -> plain_unit c = true ->
  exists x, (forall s, capitalized start (String c s) = String x (capitalized false s))
            /\ (forall s, capitalized start (String x s) = String x (capitalized false s))
            /\ plain_unit x = true
            /\ Ascii.eqb x " " = false.
Proof.
  intros Esp Hc. destruct start.
  - destruct (upper_unit_plain c Hc) as (u & Hu & Hpu & Huu & _ & [Hsp | Hsp]);
      [|congruence].
    exists u. repeat split; try assumption; intros s; cbn [capitalized].
    + now rewrite Esp, Hu, append_cons, append_nil_l.
    + now rewrite Hsp, Huu, append_cons, append_nil_l.
  - destruct (lower_unit_facts c) as (Hll & Hpl & _ & Hsp).
    exists (lower_unit c). repeat split; auto; try congruence;
      intros s; cbn [capitalized].
    + now rewrite Esp, append_cons, append_nil_l.
    + now rewrite Hsp, Esp, Hll, append_cons, append_nil_l.
Qed.

Lemma space_is (c : ascii) : Ascii.eqb c " " = true -> c = " "%char.
Proof. apply Ascii.eqb_eq. Qed.

Lemma capitalized_length (s : string) (start : bool) :
  plain s = true ->
  String.length (capitalized start s) = String.length s
  /\ plain (capitalized start s) = true.
Proof.
  revert start. induction s as [|c s IH]; intros start Hp; [split; reflexivity|].
  cbn [plain] in Hp. apply andb_prop in Hp as [Hc Hs].
  destruct (Ascii.eqb c " ") eqn:Esp.
  - apply space_is in Esp. subst c. rewrite capitalized_space.
    destruct (IH true Hs) as [IH1 IH2]. cbn [String.length plain].
    now rewrite IH1, IH2.
  - destruct (capitalized_letter start c Esp Hc) as (x & Hx & _ & Hpx & _).
    rewrite Hx. destruct (IH false Hs) as [IH1 IH2]. cbn [String.length plain].
    now rewrite IH1, IH2, Hpx.
Qed.

Lemma capitalized_idempotent (s : string) (start : bool) :
  plain s = true -> capitalized start (capitalized start s) = capitalized start s.
Proof.
  revert start. induction s as [|c s IH]; intros start Hp; [reflexivity|].
  cbn [plain] in Hp. apply andb_prop in Hp as [Hc Hs].
  destruct (Ascii.eqb c " ") eqn:Esp.
  - apply space_is in Esp. subst c. rewrite !capitalized_space. now rewrite IH.
  - destruct (capitalized_letter start c Esp Hc) as (x & Hx & Hxx & _ & _).
    rewrite Hx, Hxx. now rewrite IH.
Qed.

Lemma capitalized_toLowerCase (s : string) (start : bool) :
  plain s = true -> capitalized start (toLowerCase s) = capitalized start s.
Proof.
  revert start. induction s as [|c s IH]; intros start Hp; [reflexivity|].
  cbn [plain] in Hp. apply andb_prop in Hp as [Hc Hs].
  cbn [toLowerCase capitalized].
  destruct (lower_unit_facts c) as (Hll & _ & Hul & Hsp).
  rewrite Hsp. destruct (Ascii.eqb c " "); [now rewrite IH|].
  rewrite Hll, (Hul Hc). now rewrite IH.
Qed.

(** X22.  Capitalising a name again changes nothing, and the result does not
    depend on how the name was cased: lower-casing the input first gives the
    same result (for names whose letters have one-letter upper-case forms
    within Latin-1). *)
Theorem capitalizeFirstLetter_is_canonical (str : string) :
  plain str = true ->
  capitalizeFirstLetter (capitalizeFirstLetter str) = capitalizeFirstLetter str
  /\ capitalizeFirstLetter (toLowerCase str) = capitalizeFirstLetter str.
Proof.
  intros Hp. rewrite !capitalizeFirstLetter_capitalized. split.
  - now apply capitalized_idempotent.
  - now apply capitalized_toLowerCase.
Qed.

Lemma capitalizeFirstLetter_is_canonical_witness :
  plain "john DOE  smith" = true
  /\ capitalizeFirstLetter (capitalizeFirstLetter "john DOE  smith") = "John Doe  Smith".
Proof.
  assert (Hp : plain "john DOE  smith" = true) by reflexivity.
  split; [exact Hp|].
  exact (proj1 (capitalizeFirstLetter_is_canonical "john DOE  smith" Hp)).
Defined.

Lemma split_space_letter (x : ascii) (s : string) :
  Ascii.eqb x " " = false ->
  map String.length (split_space (String x s))
  = match map String.length (split_space s) with
    | n :: ns => S n :: ns
    | [] => [1%nat]
    end.
Proof.
  intros Hx. cbn [split_space]. rewrite Hx. now destruct (split_space s).
Qed.

Lemma split_space_lengths (s : string) (start : bool) :
  plain s = true ->
  map String.length (split_space (capitalized start s))
  = map String.length (split_space s).
Proof.
  revert start. induction s as [|c s IH]; intros start Hp; [reflexivity|].
  cbn [plain] in Hp. apply andb_prop in Hp as [Hc Hs].
  destruct (Ascii.eqb c " ") eqn:Esp.
  - apply space_is in Esp. subst c. rewrite capitalized_space.
    cbn [split_space]. change (Ascii.eqb " " " ") with true. cbn [map].
    now rewrite IH.
  - destruct (capitalized_letter start c Esp Hc) as (x & Hx & _ & _ & Hsp).
    rewrite Hx, !split_space_letter by assumption. now rewrite IH.
Qed.

(** X23.  Capitalising keeps the shape of the name: the result has the
    length of the input and the same words, of the same lengths, separated by
    the same spaces (for names as in X22); the empty name stays empty. *)
Theorem capitalizeFirstLetter_keeps_the_shape (str : string) :
  plain str = true ->
  String.length (capitalizeFirstLetter str) = String.length str
  /\ map String.length (split_space (capitalizeFirstLetter str))
     = map String.length (split_space str)
  /\ capitalizeFirstLetter "" = "".
Proof.
  intros Hp. rewrite !capitalizeFirstLetter_capitalized. repeat split.
  - now apply capitalized_length.
  - now apply split_space_lengths.
Qed.

Lemma capitalizeFirstLetter_keeps_the_shape_witness :
  plain " ann  LEE" = true
  /\ String.length (capitalizeFirstLetter " ann  LEE") = 9%nat.
Proof.
  assert (Hp : plain " ann  LEE" = true) by reflexivity.
  split; [exact Hp|].
  exact (proj1 (capitalizeFirstLetter_keeps_the_shape " ann  LEE" Hp)).
Defined.
End Capitalise.

(** ** Submitting a reading, loading the meter page, saving the baseline *)

Section BaselineCases.
Import JS ProfileHeader Props.

(** The two things [handleSaveInitialReading] can do. *)
Lemma baseline_update_cases (input : string) :
  (turned_down input /\ handleSaveInitialReading input = [])
  \/ (~ turned_down input
      /\ handleSaveInitialReading input = [onUpdateInitialReading (parseInt input)]).
Proof.
  unfold handleSaveInitialReading, turned_down.
  destruct (truthy input) eqn:Ht; simpl.
  2: { left. split; [left; now apply truthy_false | reflexivity]. }
  destruct (isNaN (parseInt input)) eqn:Hn; simpl.
  1: { left. split; [right; left; now apply isNaN_true | reflexivity]. }
  destruct (lt (parseInt input) (Finite 0)) eqn:Hl.
  1: { left. split; [right; right; reflexivity | reflexivity]. }
  right. split; [|reflexivity].
  intros [H | [H | H]].
  - subst. discriminate Ht.
  - rewrite H in Hn. discriminate Hn.
  - congruence.
Qed.
End BaselineCases.

Section ApiHandlers.
Import JS Async Api Props.

(** Splits a run on whatever the world answers next. *)
Ltac next_reply :=
  match goal with
  | |- context [settle (Api.token ?w)] => destruct (Api.token w) as [[?tk|]|?e] eqn:?
  | |- context [match Api.token ?w with _ => _ end] =>
      destruct (Api.token w) as [[?tk|]|?e] eqn:?
  | |- context [truthy ?tk] => destruct (truthy tk) eqn:?
  | |- context [settle (Api.respond ?w ?b ?c)] =>
      destruct (Api.respond w b c) as [[[?body|?e]|?status [?errorData|?e]]|?e] eqn:?
  | |- context [match Api.respond ?w ?b ?c with _ => _ end] =>
      destruct (Api.respond w b c) as [[[?body|?e]|?status [?errorData|?e]]|?e] eqn:?
  | |- context [detail_or ?j _] => destruct j as [| | | | |[?detail|]]
  | |- context [match ?j with JNull => _ | _ => _ end] =>
      destruct j as [| | | | |[?detail|]]
  end.

Ltac every_reply := repeat (cbn; try next_reply).


(** X24.  Submitting the reading form on the meter page.  No exception
    escapes, and at most the one POST is sent, carrying the parsed values.
    The reading list grows only by the reading the backend returned for that
    POST: either the list and the form are exactly as before, or the backend
    answered successfully with a reading, which is appended at the end, the
    error is cleared, and the form is reset to its defaults (the previous
    field reseeded from the profile's baseline, not from what was just
    submitted). *)
Theorem reading_is_added_only_when_created (w : World) (today : string)
    (auth : MeterDetails.Auth) (profile : Profile.t)
    (values : AddReadingForm.FormValues) (m : MeterPage.Mounted) :
  let o := run w (ReadingForm.onSubmit today MeterPage.reset
                    (MeterPage.form_props auth profile) values) m in
  result o = inr tt
  /\ (omap sent (trace o) = []
      \/ exists tk, omap sent (trace o)
                    = [(tk, PostReading (AddReadingForm.payload profile values))])
  /\ ((MeterDetails.readings (fst (final o)) = MeterDetails.readings (fst m)
       /\ snd (final o) = snd m)
      \/ exists tk newReading,
           respond w tk (PostReading (AddReadingForm.payload profile values))
           = Fulfilled (Ok (Fulfilled newReading))
           /\ MeterDetails.readings (fst (final o))
              = (MeterDetails.readings (fst m) ++ [newReading])%list
           /\ MeterDetails.error (fst (final o)) = None
           /\ snd (final o) = Seed.defaultValues today profile).
Proof.
  intros o. subst o. unfold ReadingForm.onSubmit.
  cbn [ReadingForm.isSignedIn ReadingForm.userId MeterPage.form_props].
  destruct (negb (default false (MeterDetails.isSignedIn auth))
            || no_token (MeterDetails.userId auth)).
  - cbn. repeat split; auto.
  - every_reply; (split; [reflexivity|]); (split; [eauto|]);
      try (left; split; reflexivity).
    right. do 2 eexists. repeat split. eassumption.
Qed.


(** X26.  Saving the baseline from the profile header.  A candidate that is
    turned down (empty, not a number, negative) reaches nothing: no token is
    asked for, nothing is sent, the page state is untouched; so does any
    candidate while no profile is loaded.  Any other candidate sends at most
    the one PATCH, carrying the parsed value; the profile on the page changes
    only to the profile the backend returned for it, with the error cleared. *)
Theorem baseline_is_saved_only_when_accepted (w : World) (s : MeterDetails.State)
    (profile : option Profile.t) (profileId input : string) :
  let o := run w (MeterPage.save profile profileId input) s in
  ((turned_down input \/ profile = None) ->
   o = {| trace := []; final := s; result := inr tt |})
  /\ result o = inr tt
  /\ (omap sent (trace o) = []
      \/ exists tk, omap sent (trace o)
                    = [(tk, PatchInitialReading profileId (parseInt input))])
  /\ ((MeterDetails.profile (final o) = MeterDetails.profile s)
      \/ exists tk updated,
           respond w tk (PatchInitialReading profileId (parseInt input))
           = Fulfilled (Ok (Fulfilled updated))
           /\ MeterDetails.profile (final o) = Some updated
           /\ MeterDetails.error (final o) = None)
  /\ MeterDetails.readings (final o) = MeterDetails.readings s.
Proof.
  intros o. subst o. unfold MeterPage.save.
  destruct (baseline_update_cases input) as [[Ht ->] | [Hn ->]].
  - cbn. repeat split; auto.
  - cbn [MeterPage.perform]. unfold MeterPage.handleUpdateInitialReading.
    destruct profile as [p|].
    + split; [intros [H | H]; [contradiction | discriminate]|].
      every_reply; (split; [reflexivity|]); (split; [eauto|]);
        (split; [|reflexivity]); try (left; reflexivity).
      right. do 2 eexists. repeat split. eassumption.
    + cbn. repeat split; auto.
Qed.


(** X28.  Adding a profile.  The form asks for both fields: it passes
    validation exactly when the tenant name and the meter number are
    non-empty, and otherwise nothing happens.  The page navigates nowhere
    but to the dashboard, and there only after the backend has answered the
    one POST, carrying the two fields, successfully; no exception escapes,
    and once past the sign-in guard the handler ends with the loading flag
    off. *)
Theorem profile_is_added_then_dashboard (w : World) (s : AddProfile.State)
    (auth : MeterDetails.Auth) (values : AddProfile.FormValues) :
  let o := run w (AddProfile.submit auth values) s in
  ((exists data, AddProfile.formSchema values = Zod.Success data)
   <-> AddProfile.tenant_name values <> "" /\ AddProfile.meter_number values <> "")
  /\ ((AddProfile.tenant_name values = "" \/ AddProfile.meter_number values = "") ->
      o = {| trace := []; final := s; result := inr tt |})
  /\ result o = inr tt
  /\ (omap navigation (trace o) = []
      \/ omap navigation (trace o) = ["/dashboard"]
         /\ exists tk body,
              omap sent (trace o)
              = [(tk, PostProfile (AddProfile.tenant_name values)
                                  (AddProfile.meter_number values))]
              /\ respond w tk (PostProfile (AddProfile.tenant_name values)
                                           (AddProfile.meter_number values))
                 = Fulfilled (Ok body))
  /\ (MeterDetails.signed_out auth = false ->
      AddProfile.tenant_name values <> "" -> AddProfile.meter_number values <> "" ->
      AddProfile.isLoading (final o) = false).
Proof.
  intros o. subst o. unfold AddProfile.submit, AddProfile.formSchema,
    AddProfile.formSchema_issues.
  destruct values as [tenant meter]. cbn [AddProfile.tenant_name AddProfile.meter_number].
  destruct tenant as [|a tenant], meter as [|b meter]; cbn.
  1-3: split; [split; [intros [? [=]] | intros [? ?]; congruence]|];
       split; [reflexivity|]; split; [reflexivity|]; split; [now left|];
       intros _ ? ?; congruence.
  split; [split; [intros _; split; discriminate | intros _; eauto]|].
  split; [intros [H | H]; discriminate H|].
  unfold AddProfile.onSubmit.
  destruct (MeterDetails.signed_out auth).
  { cbn. split; [reflexivity|]. split; [now left | discriminate]. }
  every_reply; (split; [reflexivity|]); (split; [|reflexivity]);
    first [ left; reflexivity
          | right; split; [reflexivity|]; do 2 eexists; split;
            [reflexivity | eassumption] ].
Qed.
End ApiHandlers.

(** ** When a field is free of errors, and what a failed delete says *)

Section Closing.
Import JS Async Props HandlerProps Zod AddReadingForm.

(** X29.  The previous field is shown without an error exactly when its text
    parses to a non-negative Number, whatever the other fields hold; the
    current field is shown without an error exactly when its text parses to a
    non-negative Number that is >= what the previous field parses to. *)
Theorem field_is_clean_iff (d p c : string) :
  let data := {| date := d; previous := p; current := c |} in
  (field_error "previous" data = None <-> non_negative p = true)
  /\ (field_error "current" data = None
      <-> non_negative c = true /\ ge (parseInt c) (parseInt p) = true).
Proof. split; [apply previous_error_iff | apply current_error_iff]. Qed.


End Closing.
